(** * webex_bot.models.response: the Response envelope

    A shallow embedding of [src/webex_bot/models/response.py]: the
    [Response] class (a mutable record kept in a Python dict), its property
    getters and setters, the two export views [as_dict] and [json], and the
    two builders [response_from_adaptive_card] and [response_custom_format].

    Python values are modelled as finite trees (None, bool, int, str, list
    and dict with str keys); a dict is an association list in insertion
    order, as Python's [dict] iterates.  A method that can raise returns a
    [result].  A mutating method returns the object after the mutation; a
    value stored in the record is the value that was passed, and later
    changes a caller makes to an object it shares with the record are
    outside the model. *)

From Stdlib Require Import String Ascii List ZArith Bool Lia.
From Stdlib Require Import DecimalPos DecimalZ DecimalFacts.
Import ListNotations.
Local Open Scope string_scope.
Local Open Scope list_scope.

(** ** Python values *)

Module Py.

Unset Elimination Schemes.
Inductive value : Type :=
| VNone
| VBool (b : bool)
| VInt (n : Z)
| VStr (s : string)
| VList (xs : list value)
| VDict (kvs : list (string * value)).
Set Elimination Schemes.

Definition dict : Type := list (string * value).

(** The induction principle of [value], with the hypothesis for every
    element of a list and every value of a dict. *)
Section ValueInduction.
Variable P : value -> Prop.
Hypothesis HNone : P VNone.
Hypothesis HBool : forall b, P (VBool b).
Hypothesis HInt : forall n, P (VInt n).
Hypothesis HStr : forall s, P (VStr s).
Hypothesis HList : forall xs, Forall P xs -> P (VList xs).
Hypothesis HDict : forall kvs, Forall (fun kv => P (snd kv)) kvs -> P (VDict kvs).

Fixpoint value_ind (v : value) : P v :=
  match v with
  | VNone => HNone
  | VBool b => HBool b
  | VInt n => HInt n
  | VStr s => HStr s
  | VList xs =>
      HList xs ((fix go (l : list value) : Forall P l :=
                   match l with
                   | [] => Forall_nil P
                   | x :: l' => Forall_cons x (value_ind x) (go l')
                   end) xs)
  | VDict kvs =>
      HDict kvs ((fix go (l : list (string * value)) : Forall (fun kv => P (snd kv)) l :=
                    match l with
                    | [] => Forall_nil _
                    | kv :: l' => @Forall_cons _ (fun kv => P (snd kv)) kv l' (value_ind (snd kv)) (go l')
                    end) kvs)
  end.
End ValueInduction.

(** Exceptions the modelled operations can raise. *)
Inductive exn : Type :=
| KeyError (k : string)
| TypeError
| AttributeError.

Inductive result (A : Type) : Type :=
| Ok (a : A)
| Raise (e : exn).
Arguments Ok {A} a.
Arguments Raise {A} e.

Definition bind {A B : Type} (c : result A) (k : A -> result B) : result B :=
  match c with
  | Ok a => k a
  | Raise e => Raise e
  end.

(** [bool(v)]: the truth value Python's [if v:] tests. *)
Definition truthy (v : value) : bool :=
  match v with
  | VNone => false
  | VBool b => b
  | VInt n => negb (Z.eqb n 0)
  | VStr s => negb (String.eqb s EmptyString)
  | VList xs => match xs with [] => false | _ :: _ => true end
  | VDict kvs => match kvs with [] => false | _ :: _ => true end
  end.

(** [d.get(k)] on the association list. *)
Fixpoint dict_get (k : string) (d : dict) : option value :=
  match d with
  | [] => None
  | (k', v) :: d' => if String.eqb k k' then Some v else dict_get k d'
  end.

(** [d[k] = v]: an existing key keeps its position, a new key goes last. *)
Fixpoint dict_set (k : string) (v : value) (d : dict) : dict :=
  match d with
  | [] => [(k, v)]
  | (k', v') :: d' =>
      if String.eqb k k' then (k', v) :: d' else (k', v') :: dict_set k v d'
  end.

Definition keys (d : dict) : list string := map fst d.

(** [o[k]] for a str key [k]. *)
Definition getitem (o : value) (k : string) : result value :=
  match o with
  | VDict d =>
      match dict_get k d with
      | Some v => Ok v
      | None => Raise (KeyError k)
      end
  | _ => Raise TypeError
  end.

(** [o[k] = v] for a str key [k]. *)
Definition setitem (o : value) (k : string) (v : value) : result value :=
  match o with
  | VDict d => Ok (VDict (dict_set k v d))
  | _ => Raise TypeError
  end.

(** [o.append(v)]. *)
Definition append (o : value) (v : value) : result value :=
  match o with
  | VList xs => Ok (VList (xs ++ [v]))
  | _ => Raise AttributeError
  end.

(** [o.items()]. *)
Definition items (o : value) : result dict :=
  match o with
  | VDict d => Ok d
  | _ => Raise AttributeError
  end.

(** The representation invariant of a Python dict: no key occurs twice,
    at any depth. *)
Fixpoint wf (v : value) : Prop :=
  match v with
  | VList xs => (fix all (l : list value) : Prop :=
                   match l with
                   | [] => True
                   | x :: l' => wf x /\ all l'
                   end) xs
  | VDict kvs => NoDup (map fst kvs) /\
                 (fix all (l : list (string * value)) : Prop :=
                    match l with
                    | [] => True
                    | kv :: l' => wf (snd kv) /\ all l'
                    end) kvs
  | _ => True
  end.

End Py.
Import Py.

Notation "x <- c ;; k" := (bind c (fun x => k))
  (at level 61, c at next level, right associativity).

(** ** The [json] module of the Python library

    [json.dumps] with its default arguments (separators [", "] and [": "],
    [ensure_ascii=True]) and [json.loads], on the modelled values.  A
    character of a [string] stands for the code point of the same number, so
    the modelled strings hold code points 0 to 255; [loads] rejects an
    escape [\uXXXX] above that range and a number with a fraction or an
    exponent, which the model has no value for. *)

Module Json.

Local Open Scope char_scope.
Local Open Scope list_scope.

Definition dquote : ascii := "034".
Definition backslash : ascii := "092".

Definition hex_digit (n : N) : ascii :=
  match n with
  | 0%N => "0" | 1%N => "1" | 2%N => "2" | 3%N => "3"
  | 4%N => "4" | 5%N => "5" | 6%N => "6" | 7%N => "7"
  | 8%N => "8" | 9%N => "9" | 10%N => "a" | 11%N => "b"
  | 12%N => "c" | 13%N => "d" | 14%N => "e" | _ => "f"
  end.

(** The replacement [encode_basestring_ascii] makes for one character:
    printable ASCII other than the quote and the backslash stays, the named
    escapes come from the table, the rest is written [\u00xx]. *)
Definition escape_char (c : ascii) : list ascii :=
  if Ascii.eqb c backslash then [backslash; backslash]
  else if Ascii.eqb c dquote then [backslash; dquote]
  else if Ascii.eqb c "008" then [backslash; "b"]
  else if Ascii.eqb c "012" then [backslash; "f"]
  else if Ascii.eqb c "010" then [backslash; "n"]
  else if Ascii.eqb c "013" then [backslash; "r"]
  else if Ascii.eqb c "009" then [backslash; "t"]
  else if (N.leb 32 (N_of_ascii c) && N.leb (N_of_ascii c) 126)%bool then [c]
  else [backslash; "u"; "0"; "0";
        hex_digit (N.div (N_of_ascii c) 16);
        hex_digit (N.modulo (N_of_ascii c) 16)].

Definition encode_string (s : string) : list ascii :=
  dquote :: flat_map escape_char (list_ascii_of_string s) ++ [dquote].

(** The decimal digits of an unsigned number, most significant first. *)
Fixpoint uint_chars (u : Decimal.uint) : list ascii :=
  match u with
  | Decimal.Nil => []
  | Decimal.D0 u => "0" :: uint_chars u
  | Decimal.D1 u => "1" :: uint_chars u
  | Decimal.D2 u => "2" :: uint_chars u
  | Decimal.D3 u => "3" :: uint_chars u
  | Decimal.D4 u => "4" :: uint_chars u
  | Decimal.D5 u => "5" :: uint_chars u
  | Decimal.D6 u => "6" :: uint_chars u
  | Decimal.D7 u => "7" :: uint_chars u
  | Decimal.D8 u => "8" :: uint_chars u
  | Decimal.D9 u => "9" :: uint_chars u
  end.

(** [int.__repr__]. *)
Definition encode_int (n : Z) : list ascii :=
  match Z.to_int n with
  | Decimal.Pos u => uint_chars u
  | Decimal.Neg u => "-" :: uint_chars u
  end.

(** [sep.join(parts)]. *)
Fixpoint join (sep : list ascii) (parts : list (list ascii)) : list ascii :=
  match parts with
  | [] => []
  | [p] => p
  | p :: ps => p ++ sep ++ join sep ps
  end.

Definition item_separator : list ascii := [","; " "].
Definition key_separator : list ascii := [":"; " "].

(** The text [json.dumps(v)] produces, as a list of characters. *)
Fixpoint encode (v : value) : list ascii :=
  match v with
  | VNone => ["n"; "u"; "l"; "l"]
  | VBool true => ["t"; "r"; "u"; "e"]
  | VBool false => ["f"; "a"; "l"; "s"; "e"]
  | VInt n => encode_int n
  | VStr s => encode_string s
  | VList xs => "[" :: join item_separator (map encode xs) ++ ["]"]
  | VDict kvs =>
      "{" :: join item_separator
               (map (fun kv => encode_string (fst kv) ++ key_separator ++ encode (snd kv))
                    kvs) ++ ["}"]
  end.

(** [json.dumps(v)]. *)
Definition dumps (v : value) : string := string_of_list_ascii (encode v).

(** *** Decoding *)

Definition is_ws (c : ascii) : bool :=
  (Ascii.eqb c " " || Ascii.eqb c "009" || Ascii.eqb c "010" || Ascii.eqb c "013")%bool.

Fixpoint skip_ws (s : list ascii) : list ascii :=
  match s with
  | c :: r => if is_ws c then skip_ws r else s
  | [] => []
  end.

Definition unhex (c : ascii) : option N :=
  let n := N_of_ascii c in
  if (N.leb 48 n && N.leb n 57)%bool then Some (n - 48)%N
  else if (N.leb 97 n && N.leb n 102)%bool then Some (n - 87)%N
  else if (N.leb 65 n && N.leb n 70)%bool then Some (n - 55)%N
  else None.

(** The code point of [\uXXXX], when the model has a character for it. *)
Definition unhex4 (a b c d : ascii) : option ascii :=
  match unhex a, unhex b, unhex c, unhex d with
  | Some x, Some y, Some z, Some w =>
      let n := (4096 * x + 256 * y + 16 * z + w)%N in
      if N.ltb n 256 then Some (ascii_of_N n) else None
  | _, _, _, _ => None
  end.

(** The character a one-letter escape stands for. *)
Definition unescape (c : ascii) : option ascii :=
  if Ascii.eqb c dquote then Some dquote
  else if Ascii.eqb c backslash then Some backslash
  else if Ascii.eqb c "/" then Some "/"
  else if Ascii.eqb c "b" then Some "008"
  else if Ascii.eqb c "f" then Some "012"
  else if Ascii.eqb c "n" then Some "010"
  else if Ascii.eqb c "r" then Some "013"
  else if Ascii.eqb c "t" then Some "009"
  else None.

(** [scanstring] in strict mode, from the character after the opening
    quote: the decoded characters and the text after the closing quote. *)
Fixpoint scanstring (s : list ascii) : option (list ascii * list ascii) :=
  match s with
  | [] => None
  | c :: r =>
      if Ascii.eqb c dquote then Some ([], r)
      else if Ascii.eqb c backslash then
        match r with
        | [] => None
        | e :: r1 =>
            if Ascii.eqb e "u" then
              match r1 with
              | h1 :: h2 :: h3 :: h4 :: r2 =>
                  match unhex4 h1 h2 h3 h4, scanstring r2 with
                  | Some ch, Some (str, rest) => Some (ch :: str, rest)
                  | _, _ => None
                  end
              | _ => None
              end
            else
              match unescape e, scanstring r1 with
              | Some ch, Some (str, rest) => Some (ch :: str, rest)
              | _, _ => None
              end
        end
      else if N.ltb (N_of_ascii c) 32 then None
      else
        match scanstring r with
        | Some (str, rest) => Some (c :: str, rest)
        | None => None
        end
  end.

Definition digit (c : ascii) : option (Decimal.uint -> Decimal.uint) :=
  if Ascii.eqb c "0" then Some Decimal.D0
  else if Ascii.eqb c "1" then Some Decimal.D1
  else if Ascii.eqb c "2" then Some Decimal.D2
  else if Ascii.eqb c "3" then Some Decimal.D3
  else if Ascii.eqb c "4" then Some Decimal.D4
  else if Ascii.eqb c "5" then Some Decimal.D5
  else if Ascii.eqb c "6" then Some Decimal.D6
  else if Ascii.eqb c "7" then Some Decimal.D7
  else if Ascii.eqb c "8" then Some Decimal.D8
  else if Ascii.eqb c "9" then Some Decimal.D9
  else None.

(** The longest run of digits at the head of the text. *)
Fixpoint scan_digits (s : list ascii) : Decimal.uint * list ascii :=
  match s with
  | [] => (Decimal.Nil, [])
  | c :: r =>
      match digit c with
      | Some d => let (u, rest) := scan_digits r in (d u, rest)
      | None => (Decimal.Nil, s)
      end
  end.

(** A text after an integer that would make the number a float. *)
Definition float_tail (s : list ascii) : bool :=
  match s with
  | c :: _ => (Ascii.eqb c "." || Ascii.eqb c "e" || Ascii.eqb c "E")%bool
  | [] => false
  end.

(** The integer part [0|[1-9][0-9]*] of the number grammar. *)
Definition scan_uint (s : list ascii) : option (Decimal.uint * list ascii) :=
  match scan_digits s with
  | (Decimal.Nil, _) => None
  | (Decimal.D0 Decimal.Nil, rest) =>
      if float_tail rest then None else Some (Decimal.D0 Decimal.Nil, rest)
  | (Decimal.D0 _, _) => None
  | (u, rest) => if float_tail rest then None else Some (u, rest)
  end.

Definition scan_number (s : list ascii) : option (value * list ascii) :=
  match s with
  | [] => None
  | c :: r =>
      if Ascii.eqb c "-" then
        match scan_uint r with
        | Some (u, rest) => Some (VInt (Z.of_int (Decimal.Neg u)), rest)
        | None => None
        end
      else
        match scan_uint s with
        | Some (u, rest) => Some (VInt (Z.of_int (Decimal.Pos u)), rest)
        | None => None
        end
  end.

(** [expect w s]: the text after the literal [w] at the head of [s]. *)
Fixpoint expect (w s : list ascii) : option (list ascii) :=
  match w, s with
  | [], _ => Some s
  | a :: w', b :: s' => if Ascii.eqb a b then expect w' s' else None
  | _ :: _, [] => None
  end.

(** [dict(pairs)]: later pairs overwrite earlier ones. *)
Definition dict_of_pairs (pairs : list (string * value)) : dict :=
  fold_left (fun d kv => dict_set (fst kv) (snd kv) d) pairs [].

(** [scan_once]: one JSON value at the head of the text, and the text after
    it.  [scan_array] reads the elements of an array up to its closing
    bracket and [scan_object] the pairs of an object up to its closing
    brace; [n] bounds the number of nested calls. *)
Fixpoint scan_once (n : nat) (s : list ascii) {struct n}
    : option (value * list ascii) :=
  match n with
  | O => None
  | S n =>
      match s with
      | [] => None
      | c :: r =>
          if Ascii.eqb c dquote then
            match scanstring r with
            | Some (str, rest) => Some (VStr (string_of_list_ascii str), rest)
            | None => None
            end
          else if Ascii.eqb c "{" then
            match skip_ws r with
            | [] => None
            | c1 :: r1 =>
                if Ascii.eqb c1 "}" then Some (VDict [], r1)
                else
                  match scan_object n (c1 :: r1) with
                  | Some (pairs, rest) => Some (VDict (dict_of_pairs pairs), rest)
                  | None => None
                  end
            end
          else if Ascii.eqb c "[" then
            match skip_ws r with
            | [] => None
            | c1 :: r1 =>
                if Ascii.eqb c1 "]" then Some (VList [], r1)
                else
                  match scan_array n (c1 :: r1) with
                  | Some (xs, rest) => Some (VList xs, rest)
                  | None => None
                  end
            end
          else if Ascii.eqb c "n" then
            match expect ["u"; "l"; "l"] r with
            | Some rest => Some (VNone, rest)
            | None => None
            end
          else if Ascii.eqb c "t" then
            match expect ["r"; "u"; "e"] r with
            | Some rest => Some (VBool true, rest)
            | None => None
            end
          else if Ascii.eqb c "f" then
            match expect ["a"; "l"; "s"; "e"] r with
            | Some rest => Some (VBool false, rest)
            | None => None
            end
          else scan_number s
      end
  end
with scan_array (n : nat) (s : list ascii) {struct n}
    : option (list value * list ascii) :=
  match n with
  | O => None
  | S n =>
      match scan_once n s with
      | None => None
      | Some (v, r) =>
          match skip_ws r with
          | [] => None
          | c :: r1 =>
              if Ascii.eqb c "]" then Some ([v], r1)
              else if Ascii.eqb c "," then
                match scan_array n (skip_ws r1) with
                | Some (vs, rest) => Some (v :: vs, rest)
                | None => None
                end
              else None
          end
      end
  end
with scan_object (n : nat) (s : list ascii) {struct n}
    : option (list (string * value) * list ascii) :=
  match n with
  | O => None
  | S n =>
      match s with
      | [] => None
      | q :: r =>
          if Ascii.eqb q dquote then
            match scanstring r with
            | None => None
            | Some (k, r1) =>
                match skip_ws r1 with
                | [] => None
                | c1 :: r2 =>
                    if Ascii.eqb c1 ":" then
                      match scan_once n (skip_ws r2) with
                      | None => None
                      | Some (v, r3) =>
                          match skip_ws r3 with
                          | [] => None
                          | c3 :: r4 =>
                              if Ascii.eqb c3 "}" then
                                Some ([(string_of_list_ascii k, v)], r4)
                              else if Ascii.eqb c3 "," then
                                match scan_object n (skip_ws r4) with
                                | Some (kvs, rest) =>
                                    Some ((string_of_list_ascii k, v) :: kvs, rest)
                                | None => None
                                end
                              else None
                          end
                      end
                    else None
                end
            end
          else None
      end
  end.

(** [json.loads(s)]: one value between optional white space, and nothing
    after it.  No value of a text needs more nested calls than the text
    has characters. *)
Definition loads (s : string) : option value :=
  let cs := list_ascii_of_string s in
  match scan_once (S (length cs)) (skip_ws cs) with
  | Some (v, rest) =>
      match skip_ws rest with
      | [] => Some v
      | _ :: _ => None
      end
  | None => None
  end.

(** *** What a round trip yields, and how much fuel it takes *)

(** The value [loads (dumps v)] yields: [v] with every dict rebuilt by
    [dict(pairs)].  It is [v] itself when no dict of [v] repeats a key. *)
Fixpoint norm (v : value) : value :=
  match v with
  | VList xs => VList (map norm xs)
  | VDict kvs => VDict (dict_of_pairs (map (fun kv => (fst kv, norm (snd kv))) kvs))
  | _ => v
  end.

(** Nested calls [scan_once] needs below its first one to read back
    [encode v]: two for each element of a list or pair of a dict. *)
Fixpoint depth (v : value) : nat :=
  match v with
  | VList xs => list_sum (map (fun x => 2 + depth x) xs)
  | VDict kvs => list_sum (map (fun kv => 2 + depth (snd kv)) kvs)
  | _ => 0
  end.

(** The first character of a JSON value. *)
Definition value_start (c : ascii) : bool :=
  match digit c with
  | Some _ => true
  | None =>
      (Ascii.eqb c "-" || Ascii.eqb c dquote || Ascii.eqb c "[" || Ascii.eqb c "{"
       || Ascii.eqb c "n" || Ascii.eqb c "t" || Ascii.eqb c "f")%bool
  end.

(** A text that can follow a number without changing how it is read. *)
Definition number_end (s : list ascii) : bool :=
  match s with
  | [] => true
  | c :: _ => match digit c with
              | Some _ => false
              | None => negb (float_tail s)
              end
  end.

(** The text of one pair of a dict, as [encode] writes it. *)
Definition encode_pair (kv : string * value) : list ascii :=
  encode_string (fst kv) ++ key_separator ++ encode (snd kv).

(** [encode v] reads back as [norm v], whatever follows it. *)
Definition reads_back (v : value) : Prop :=
  forall n rest, depth v <= n -> number_end rest = true ->
    scan_once (S n) (encode v ++ rest) = Some (norm v, rest).

End Json.

(** ** The Response class *)

(** The object's only instance attribute is [self.attributes]. *)
Record Response : Type := mkResponse { attributes : value }.

(** The record [__init__] builds when no attributes are given. *)
Definition default_attributes : dict :=
  let d := [] in
  let d := dict_set "text" VNone d in
  let d := dict_set "roomId" VNone d in
  let d := dict_set "parentId" VNone d in
  let d := dict_set "markdown" VNone d in
  let d := dict_set "html" VNone d in
  let d := dict_set "files" (VList []) d in
  let d := dict_set "attachments" (VList []) d in
  d.

(** [Response.__init__(self, attributes=None)]. *)
Definition Response_init (attrs : value) : Response :=
  if truthy attrs then mkResponse attrs
  else mkResponse (VDict default_attributes).

(** [Response()]. *)
Definition Response_new : Response := Response_init VNone.

(** A property getter: [return self.attributes[k]]. *)
Definition getter (k : string) (self : Response) : result value :=
  getitem (attributes self) k.

(** A pass-through setter: [self.attributes[k] = val]. *)
Definition setter (k : string) (val : value) (self : Response) : result Response :=
  a <- setitem (attributes self) k val ;;
  Ok (mkResponse a).

(** An appending setter: [self.attributes[k].append(val)].  The list stored
    under [k] is mutated in place, so the record holds the longer list
    under the same key afterwards. *)
Definition appender (k : string) (val : value) (self : Response) : result Response :=
  l <- getitem (attributes self) k ;;
  l' <- append l val ;;
  a <- setitem (attributes self) k l' ;;
  Ok (mkResponse a).

Definition text : Response -> result value := getter "text".
Definition set_text : value -> Response -> result Response := setter "text".
Definition files : Response -> result value := getter "files".
Definition set_files : value -> Response -> result Response := appender "files".
Definition attachments : Response -> result value := getter "attachments".
Definition set_attachments : value -> Response -> result Response :=
  appender "attachments".
Definition roomId : Response -> result value := getter "roomId".
Definition set_roomId : value -> Response -> result Response := setter "roomId".
Definition parentId : Response -> result value := getter "parentId".
Definition set_parentId : value -> Response -> result Response := setter "parentId".
Definition markdown : Response -> result value := getter "markdown".
Definition set_markdown : value -> Response -> result Response := setter "markdown".
Definition html : Response -> result value := getter "html".
Definition set_html : value -> Response -> result Response := setter "html".

(** The loop of [as_dict]: [for k, v in items: if v: ret[k] = v]. *)
Definition as_dict_loop (its : dict) (ret : dict) : dict :=
  fold_left (fun ret kv => if truthy (snd kv) then dict_set (fst kv) (snd kv) ret else ret)
            its ret.

(** [Response.as_dict(self)]. *)
Definition as_dict (self : Response) : result dict :=
  its <- items (attributes self) ;;
  Ok (as_dict_loop its []).

(** [Response.json(self)]: the whole record, unfiltered. *)
Definition json (self : Response) : string := Json.dumps (attributes self).

(** ** The builders *)

(** The external card type: all the module uses of an [AdaptiveCard] is its
    dictionary export [to_dict()]. *)
Class AdaptiveCard (C : Type) : Type := to_dict : C -> value.

Definition fallback_text : string :=
  "This bot requires a client which can render cards.".

Definition adaptive_card_content_type : string :=
  "application/vnd.microsoft.card.adaptive".

(** [response_from_adaptive_card(adaptive_card)]. *)
Definition response_from_adaptive_card {C : Type} `{AdaptiveCard C}
    (adaptive_card : C) : result Response :=
  let response := Response_new in
  response <- set_text (VStr fallback_text) response ;;
  response <- set_markdown (VStr fallback_text) response ;;
  response <- set_attachments
      (VDict [("contentType", VStr adaptive_card_content_type);
              ("content", to_dict adaptive_card)])
      response ;;
  Ok response.

(** [response_custom_format(text, markdown, files=None, attachments=None)];
    an omitted argument is passed as [VNone]. *)
Definition response_custom_format (text markdown files attachments : value)
    : result Response :=
  let response := Response_new in
  response <- set_text text response ;;
  response <- set_markdown markdown response ;;
  response <- (if truthy files then set_files files response else Ok response) ;;
  response <- (if truthy attachments then set_attachments attachments response
               else Ok response) ;;
  Ok response.

(** ** Sequences of method calls *)

(** The calls a client makes on a Response after constructing it: the seven
    property assignments and the two exports. *)
Inductive call : Type :=
| SetText (val : value)
| SetFiles (val : value)
| SetAttachments (val : value)
| SetRoomId (val : value)
| SetParentId (val : value)
| SetMarkdown (val : value)
| SetHtml (val : value)
| CallAsDict
| CallJson.

(** The object after one call; the exports leave it as it is. *)
Definition perform (c : call) (self : Response) : result Response :=
  match c with
  | SetText val => set_text val self
  | SetFiles val => set_files val self
  | SetAttachments val => set_attachments val self
  | SetRoomId val => set_roomId val self
  | SetParentId val => set_parentId val self
  | SetMarkdown val => set_markdown val self
  | SetHtml val => set_html val self
  | CallAsDict => _ <- as_dict self ;; Ok self
  | CallJson => let _ := json self in Ok self
  end.

Fixpoint perform_all (cs : list call) (self : Response) : result Response :=
  match cs with
  | [] => Ok self
  | c :: cs' => self' <- perform c self ;; perform_all cs' self'
  end.

(** The keys of the schema, in the order [__init__] inserts them. *)
Definition canonical_keys : list string :=
  ["text"; "roomId"; "parentId"; "markdown"; "html"; "files"; "attachments"].

(** Both sequence fields hold a list. *)
Definition sequences_ok (self : Response) : Prop :=
  exists fs ats, files self = Ok (VList fs) /\ attachments self = Ok (VList ats).

(** ** What a sequence of calls assigns *)

(** The field a call assigns to, if it assigns. *)
Definition call_field (c : call) : option string :=
  match c with
  | SetText _ => Some "text"
  | SetFiles _ => Some "files"
  | SetAttachments _ => Some "attachments"
  | SetRoomId _ => Some "roomId"
  | SetParentId _ => Some "parentId"
  | SetMarkdown _ => Some "markdown"
  | SetHtml _ => Some "html"
  | CallAsDict => None
  | CallJson => None
  end.

(** The values the calls assign to [files], in the order of the calls. *)
Fixpoint files_of (cs : list call) : list value :=
  match cs with
  | [] => []
  | SetFiles val :: cs' => val :: files_of cs'
  | _ :: cs' => files_of cs'
  end.

(** The values the calls assign to [attachments], in the order of the calls. *)
Fixpoint attachments_of (cs : list call) : list value :=
  match cs with
  | [] => []
  | SetAttachments val :: cs' => val :: attachments_of cs'
  | _ :: cs' => attachments_of cs'
  end.

(** The scalar field a call assigns and the value it assigns. *)
Definition scalar_assignment (c : call) : option (string * value) :=
  match c with
  | SetText val => Some ("text", val)
  | SetRoomId val => Some ("roomId", val)
  | SetParentId val => Some ("parentId", val)
  | SetMarkdown val => Some ("markdown", val)
  | SetHtml val => Some ("html", val)
  | _ => None
  end.

(** The value the last assignment to the scalar field [k] among the calls
    gives it, and [init] when no call assigns to [k]. *)
Fixpoint last_assigned (k : string) (cs : list call) (init : value) : value :=
  match cs with
  | [] => init
  | c :: cs' =>
      match scalar_assignment c with
      | Some (k', val) =>
          if String.eqb k k' then last_assigned k cs' val else last_assigned k cs' init
      | None => last_assigned k cs' init
      end
  end.

(** The five scalar fields. *)
Definition scalar_keys : list string :=
  ["text"; "roomId"; "parentId"; "markdown"; "html"].

(** A value no call can change once it is stored: None, a bool, an int or
    a str.  A list or a dict can be shared with the record and change with
    it. *)
Definition immutable (v : value) : bool :=
  match v with
  | VNone | VBool _ | VInt _ | VStr _ => true
  | VList _ | VDict _ => false
  end.

Definition is_json_call (c : call) : bool :=
  match c with
  | CallJson => true
  | _ => false
  end.

(** A setter call that assigns an immutable value, or a call of [as_dict]. *)
Definition plain_call (c : call) : bool :=
  match c with
  | SetText val | SetFiles val | SetAttachments val | SetRoomId val
  | SetParentId val | SetMarkdown val | SetHtml val => immutable val
  | CallAsDict => true
  | CallJson => false
  end.

(** * Facts about the model *)

(** ** Dicts *)

Module DictFacts.

Lemma dict_get_set_same (k : string) (v : value) (d : dict) :
  dict_get k (dict_set k v d) = Some v.
Proof.
  induction d as [|[k' v'] d IH]; simpl.
  - rewrite String.eqb_refl. reflexivity.
  - destruct (String.eqb k k') eqn:E; simpl; rewrite E; auto.
Qed.

Lemma dict_get_set_other (k k' : string) (v : value) (d : dict) :
  k <> k' -> dict_get k (dict_set k' v d) = dict_get k d.
Proof.
  intros Hne. induction d as [|[k0 v0] d IH]; simpl.
  - destruct (String.eqb_spec k k'); [contradiction | reflexivity].
  - destruct (String.eqb_spec k' k0) as [->|Hk0]; simpl.
    + destruct (String.eqb_spec k k0); [contradiction | reflexivity].
    + destruct (String.eqb k k0); auto.
Qed.

Lemma dict_get_in_keys (k : string) (d : dict) (v : value) :
  dict_get k d = Some v -> In k (keys d).
Proof.
  induction d as [|[k' v'] d IH]; simpl; [discriminate|].
  destruct (String.eqb_spec k k'); auto.
Qed.

Lemma dict_get_not_in_keys (k : string) (d : dict) :
  ~ In k (keys d) -> dict_get k d = None.
Proof.
  induction d as [|[k' v'] d IH]; simpl; [reflexivity|].
  intros H. destruct (String.eqb_spec k k'); [subst; tauto | auto].
Qed.

(** Assigning to a key the dict has keeps the keys and their order. *)
Lemma keys_dict_set_present (k : string) (v : value) (d : dict) :
  In k (keys d) -> keys (dict_set k v d) = keys d.
Proof.
  induction d as [|[k' v'] d IH]; simpl; [tauto|].
  intros [->|Hin].
  - rewrite String.eqb_refl. reflexivity.
  - destruct (String.eqb k k'); simpl; [reflexivity | rewrite IH; auto].
Qed.

(** Assigning to a key the dict lacks adds the pair at the end. *)
Lemma dict_set_fresh (k : string) (v : value) (d : dict) :
  ~ In k (keys d) -> dict_set k v d = d ++ [(k, v)].
Proof.
  induction d as [|[k' v'] d IH]; simpl; [reflexivity|].
  intros H. destruct (String.eqb_spec k k'); [subst; tauto|].
  rewrite IH; tauto.
Qed.

Lemma keys_app (d1 d2 : dict) : keys (d1 ++ d2) = keys d1 ++ keys d2.
Proof. apply map_app. Qed.

Lemma dict_get_app (k : string) (d1 d2 : dict) :
  dict_get k (d1 ++ d2) =
  match dict_get k d1 with
  | Some v => Some v
  | None => dict_get k d2
  end.
Proof.
  induction d1 as [|[k' v'] d1 IH]; simpl; [reflexivity|].
  destruct (String.eqb k k'); auto.
Qed.

(** [dict(pairs)] of pairs with distinct keys is the list of pairs. *)
Lemma fold_dict_set_nodup (pairs acc : dict) :
  NoDup (keys (acc ++ pairs)) ->
  fold_left (fun d kv => dict_set (fst kv) (snd kv) d) pairs acc = acc ++ pairs.
Proof.
  revert acc. induction pairs as [|[k v] pairs IH]; intros acc Hnd; simpl.
  - rewrite List.app_nil_r. reflexivity.
  - rewrite dict_set_fresh.
    + rewrite IH; rewrite <- List.app_assoc; [reflexivity | exact Hnd].
    + rewrite keys_app in Hnd. simpl in Hnd.
      apply NoDup_remove_2 in Hnd. intros Hin. apply Hnd.
      apply in_or_app. left. exact Hin.
Qed.

Lemma dict_of_pairs_nodup (pairs : dict) :
  NoDup (keys pairs) -> Json.dict_of_pairs pairs = pairs.
Proof. intros H. apply (fold_dict_set_nodup pairs []). exact H. Qed.

(** The loop of [as_dict] keeps the truthy pairs, in order. *)
Lemma as_dict_loop_filter (its ret : dict) :
  NoDup (keys (ret ++ its)) ->
  as_dict_loop its ret = ret ++ filter (fun kv => truthy (snd kv)) its.
Proof.
  unfold as_dict_loop.
  revert ret. induction its as [|[k v] its IH]; intros ret Hnd; simpl.
  - rewrite List.app_nil_r. reflexivity.
  - assert (Hfresh : ~ In k (keys ret)).
    { rewrite keys_app in Hnd. simpl in Hnd.
      apply NoDup_remove_2 in Hnd. intros Hin. apply Hnd.
      apply in_or_app. left. exact Hin. }
    destruct (truthy v).
    + rewrite dict_set_fresh by exact Hfresh.
      rewrite IH; rewrite <- List.app_assoc; [reflexivity | exact Hnd].
    + apply IH. rewrite keys_app in *. simpl in Hnd.
      apply NoDup_remove_1 in Hnd. exact Hnd.
Qed.

Lemma dict_get_filter (f : string * value -> bool) (k : string) (v : value) (d : dict) :
  NoDup (keys d) ->
  dict_get k (filter f d) = Some v <-> dict_get k d = Some v /\ f (k, v) = true.
Proof.
  induction d as [|[k' v'] d IH]; intros Hnd; simpl.
  - split; [discriminate | intros [H _]; discriminate].
  - inversion Hnd as [|? ? Hk' Hd]; subst.
    destruct (String.eqb_spec k k') as [->|Hne].
    + destruct (f (k', v')) eqn:Ef; simpl.
      * rewrite String.eqb_refl. split.
        -- intros H. injection H as <-. auto.
        -- intros [H _]. exact H.
      * split.
        -- intros H. exfalso. apply Hk'.
           apply (dict_get_in_keys k' (filter f d) v) in H.
           unfold keys in *. apply in_map_iff in H. destruct H as ([k0 v0] & <- & Hin).
           apply filter_In in Hin. apply in_map_iff. exists (k0, v0). tauto.
        -- intros [H Hf]. injection H as <-. congruence.
    + destruct (f (k', v')); simpl.
      * destruct (String.eqb_spec k k'); [contradiction|]. apply IH. exact Hd.
      * apply IH. exact Hd.
Qed.

End DictFacts.

(** ** The round trip through JSON text *)

Module JsonFacts.
Import Json.
Local Open Scope char_scope.
Local Open Scope list_scope.

Lemma scanstring_escape_char (c : ascii) (r : list ascii) :
  scanstring (escape_char c ++ r) =
  match scanstring r with
  | Some (str, rest) => Some (c :: str, rest)
  | None => None
  end.
Proof.
  destruct c as [[] [] [] [] [] [] [] []]; reflexivity.
Qed.

Lemma scanstring_encoded (cs rest : list ascii) :
  scanstring (flat_map escape_char cs ++ dquote :: rest) = Some (cs, rest).
Proof.
  induction cs as [|c cs IH]; simpl.
  - reflexivity.
  - rewrite <- List.app_assoc, scanstring_escape_char, IH. reflexivity.
Qed.

Lemma encode_string_app (s : string) (rest : list ascii) :
  encode_string s ++ rest =
  dquote :: flat_map escape_char (list_ascii_of_string s) ++ dquote :: rest.
Proof. unfold encode_string. simpl. rewrite <- List.app_assoc. reflexivity. Qed.

Lemma digit_uint_chars (u : Decimal.uint) (rest : list ascii) :
  number_end rest = true ->
  scan_digits (uint_chars u ++ rest) = (u, rest).
Proof.
  intros Hrest. induction u; simpl; try (rewrite IHu; reflexivity).
  destruct rest as [|c r]; [reflexivity|].
  simpl in Hrest. simpl. destruct (digit c); [discriminate | reflexivity].
Qed.

(** The digits of a positive number do not start with a zero. *)
Lemma to_uint_head (p : positive) :
  Pos.to_uint p <> Decimal.Nil /\ forall u, Pos.to_uint p <> Decimal.D0 u.
Proof.
  split; [apply Unsigned.to_uint_nonnil|].
  intros u Hu.
  assert (Hn : Pos.to_uint p = Decimal.unorm (Pos.to_uint p)).
  { rewrite <- Unsigned.to_of, Unsigned.of_to. reflexivity. }
  assert (Hz : Decimal.nzhead (Pos.to_uint p) <> Decimal.Nil).
  { intros Hnil. apply (Unsigned.to_uint_nonzero p).
    rewrite Hn. apply unorm_0. exact Hnil. }
  rewrite (unorm_nzhead _ Hz) in Hn.
  rewrite Hn in Hu. exact (nzhead_nonzero _ _ Hu).
Qed.

Lemma number_end_float_tail (rest : list ascii) :
  number_end rest = true -> float_tail rest = false.
Proof.
  destruct rest as [|c r]; [reflexivity|].
  unfold number_end. destruct (digit c); [discriminate|].
  intros H. apply negb_true_iff in H. exact H.
Qed.

Lemma scan_uint_chars (u : Decimal.uint) (rest : list ascii) :
  number_end rest = true ->
  u <> Decimal.Nil ->
  (forall u', u = Decimal.D0 u' -> u' = Decimal.Nil) ->
  scan_uint (uint_chars u ++ rest) = Some (u, rest).
Proof.
  intros Hrest Hnil Hzero. unfold scan_uint.
  rewrite (digit_uint_chars u rest Hrest), (number_end_float_tail rest Hrest).
  destruct u; try reflexivity.
  - contradiction.
  - rewrite (Hzero u eq_refl). reflexivity.
Qed.

Lemma uint_chars_head (u : Decimal.uint) :
  u <> Decimal.Nil ->
  exists c cs, uint_chars u = c :: cs /\ digit c <> None.
Proof.
  destruct u; intros H; try contradiction; simpl; eexists; eexists;
    (split; [reflexivity | discriminate]).
Qed.

Lemma to_int_cases (n : Z) :
  exists u, (Z.to_int n = Decimal.Pos u \/ Z.to_int n = Decimal.Neg u) /\
            u <> Decimal.Nil /\
            (forall u', u = Decimal.D0 u' -> u' = Decimal.Nil).
Proof.
  destruct n as [|p|p]; simpl.
  - exists (Decimal.D0 Decimal.Nil). repeat split; auto; try discriminate.
    intros u' H. injection H as <-. reflexivity.
  - exists (Pos.to_uint p). destruct (to_uint_head p) as [H1 H2].
    repeat split; auto. intros u' H. destruct (H2 _ H).
  - exists (Pos.to_uint p). destruct (to_uint_head p) as [H1 H2].
    repeat split; auto. intros u' H. destruct (H2 _ H).
Qed.

Lemma digit_not_minus (c : ascii) : digit c <> None -> Ascii.eqb c "-" = false.
Proof.
  destruct (Ascii.eqb_spec c "-") as [->|]; [|reflexivity].
  intros H. exfalso. apply H. reflexivity.
Qed.

Lemma scan_number_encoded (n : Z) (rest : list ascii) :
  number_end rest = true ->
  scan_number (encode_int n ++ rest) = Some (VInt n, rest).
Proof.
  intros Hrest. unfold encode_int.
  destruct (to_int_cases n) as (u & Hu & Hnil & Hzero).
  pose proof (scan_uint_chars u rest Hrest Hnil Hzero) as Hscan.
  destruct Hu as [Hu|Hu]; rewrite Hu.
  - destruct (uint_chars_head u Hnil) as (c & cs & Hc & Hd).
    rewrite Hc in *. cbn [app] in *. unfold scan_number.
    rewrite (digit_not_minus c Hd), Hscan, <- Hu, DecimalZ.of_to. reflexivity.
  - cbn [app]. unfold scan_number. rewrite Ascii.eqb_refl, Hscan, <- Hu, DecimalZ.of_to.
    reflexivity.
Qed.

(** What the first character of a value rules out. *)
Lemma value_start_facts (c : ascii) :
  value_start c = true ->
  is_ws c = false /\ Ascii.eqb c "]" = false /\ Ascii.eqb c "}" = false.
Proof.
  destruct c as [[] [] [] [] [] [] [] []]; cbv; intros H;
    first [discriminate H | repeat split].
Qed.

Lemma encode_head (v : value) :
  exists c cs, encode v = c :: cs /\ value_start c = true.
Proof.
  destruct v as [|[]|n|s|xs|kvs]; simpl; try (eexists; eexists; split; reflexivity).
  unfold encode_int.
  destruct (to_int_cases n) as (u & Hu & Hnil & _).
  destruct (uint_chars_head u Hnil) as (c & cs & Hc & Hd).
  destruct Hu as [Hu|Hu]; rewrite Hu.
  - exists c, cs. split; [exact Hc|]. unfold value_start.
    destruct (digit c); [reflexivity | contradiction].
  - eexists; eexists; split; reflexivity.
Qed.

Lemma skip_ws_keep (c : ascii) (r : list ascii) :
  is_ws c = false -> skip_ws (c :: r) = c :: r.
Proof. intros H. simpl. rewrite H. reflexivity. Qed.

Lemma skip_ws_space (r : list ascii) : skip_ws (" " :: r) = skip_ws r.
Proof. reflexivity. Qed.

Lemma skip_ws_encode (v : value) (r : list ascii) :
  skip_ws (encode v ++ r) = encode v ++ r.
Proof.
  destruct (encode_head v) as (c & cs & Hc & Hs). rewrite Hc. simpl.
  destruct (value_start_facts c Hs) as (-> & _). reflexivity.
Qed.


Lemma encode_int_head (n : Z) :
  exists c cs, encode_int n = c :: cs /\ (digit c <> None \/ c = "-").
Proof.
  unfold encode_int.
  destruct (to_int_cases n) as (u & Hu & Hnil & _).
  destruct (uint_chars_head u Hnil) as (c & cs & Hc & Hd).
  destruct Hu as [Hu|Hu]; rewrite Hu.
  - exists c, cs. auto.
  - eexists; eexists; split; [reflexivity | right; reflexivity].
Qed.

(** *** Unfolding [scan_once], [scan_array] and [scan_object] *)

Lemma scan_once_number (n : nat) (c : ascii) (r : list ascii) :
  digit c <> None \/ c = "-" ->
  scan_once (S n) (c :: r) = scan_number (c :: r).
Proof.
  intros H.
  destruct c as [[] [] [] [] [] [] [] []];
    first [ reflexivity
          | exfalso; destruct H as [H|H]; [apply H; reflexivity | discriminate H] ].
Qed.

Lemma scan_once_string (n : nat) (r : list ascii) :
  scan_once (S n) (dquote :: r) =
  match scanstring r with
  | Some (str, rest) => Some (VStr (string_of_list_ascii str), rest)
  | None => None
  end.
Proof. reflexivity. Qed.

Lemma scan_once_array (n : nat) (c : ascii) (r : list ascii) :
  value_start c = true ->
  scan_once (S n) ("[" :: c :: r) =
  match scan_array n (c :: r) with
  | Some (xs, rest) => Some (VList xs, rest)
  | None => None
  end.
Proof.
  intros Hc. destruct (value_start_facts c Hc) as (Hws & Hclose & _).
  change (scan_once (S n) ("[" :: c :: r)) with
    (match skip_ws (c :: r) with
     | [] => None
     | c1 :: r1 =>
         if Ascii.eqb c1 "]" then Some (VList [], r1)
         else match scan_array n (c1 :: r1) with
              | Some (xs, rest) => Some (VList xs, rest)
              | None => None
              end
     end).
  cbn [skip_ws]. rewrite Hws, Hclose. reflexivity.
Qed.

Lemma scan_once_object (n : nat) (r : list ascii) :
  scan_once (S n) ("{" :: dquote :: r) =
  match scan_object n (dquote :: r) with
  | Some (pairs, rest) => Some (VDict (dict_of_pairs pairs), rest)
  | None => None
  end.
Proof. reflexivity. Qed.

Lemma scan_array_step (n : nat) (s : list ascii) :
  scan_array (S n) s =
  match scan_once n s with
  | None => None
  | Some (v, r) =>
      match skip_ws r with
      | [] => None
      | c :: r1 =>
          if Ascii.eqb c "]" then Some ([v], r1)
          else if Ascii.eqb c "," then
            match scan_array n (skip_ws r1) with
            | Some (vs, rest) => Some (v :: vs, rest)
            | None => None
            end
          else None
      end
  end.
Proof. reflexivity. Qed.

Lemma scan_object_step (n : nat) (r : list ascii) :
  scan_object (S n) (dquote :: r) =
  match scanstring r with
  | None => None
  | Some (k, r1) =>
      match skip_ws r1 with
      | [] => None
      | c1 :: r2 =>
          if Ascii.eqb c1 ":" then
            match scan_once n (skip_ws r2) with
            | None => None
            | Some (v, r3) =>
                match skip_ws r3 with
                | [] => None
                | c3 :: r4 =>
                    if Ascii.eqb c3 "}" then Some ([(string_of_list_ascii k, v)], r4)
                    else if Ascii.eqb c3 "," then
                      match scan_object n (skip_ws r4) with
                      | Some (kvs, rest) =>
                          Some ((string_of_list_ascii k, v) :: kvs, rest)
                      | None => None
                      end
                    else None
                end
            end
          else None
      end
  end.
Proof. reflexivity. Qed.

(** *** The round trip *)

Lemma join_cons_cons (sep p q : list ascii) (ps : list (list ascii)) :
  join sep (p :: q :: ps) = p ++ sep ++ join sep (q :: ps).
Proof. reflexivity. Qed.

Lemma scan_array_encoded (x : value) (xs : list value) :
  Forall reads_back (x :: xs) ->
  forall n rest,
    list_sum (map (fun y => 2 + depth y) (x :: xs)) <= n ->
    scan_array n (join item_separator (map encode (x :: xs)) ++ "]" :: rest)
    = Some (map norm (x :: xs), rest).
Proof.
  revert x. induction xs as [|y ys IH]; intros x Hall n rest Hn.
  - inversion Hall as [|? ? Hx _]; subst. simpl in Hn.
    destruct n as [|[|n]]; try lia.
    rewrite scan_array_step. cbn [map join].
    rewrite (Hx n ("]" :: rest)); [reflexivity | lia | reflexivity].
  - inversion Hall as [|? ? Hx Hrest]; subst.
    simpl in Hn.
    destruct n as [|[|n]]; try lia.
    rewrite scan_array_step.
    change (map encode (x :: y :: ys)) with (encode x :: encode y :: map encode ys).
    rewrite join_cons_cons, <- !List.app_assoc.
    rewrite (Hx n); [| lia | reflexivity].
    cbn [item_separator app].
    rewrite (skip_ws_keep ","), skip_ws_space by reflexivity.
    change (Ascii.eqb "," "]") with false.
    change (Ascii.eqb "," ",") with true. cbv iota.
    assert (Hskip : forall t, skip_ws (join item_separator (encode y :: map encode ys) ++ t)
                              = join item_separator (encode y :: map encode ys) ++ t).
    { intros t. destruct (map encode ys) as [|p ps].
      - simpl join. apply skip_ws_encode.
      - rewrite join_cons_cons, <- List.app_assoc. apply skip_ws_encode. }
    rewrite Hskip.
    change (encode y :: map encode ys) with (map encode (y :: ys)).
    rewrite (IH y Hrest (S n) rest); [reflexivity|].
    simpl. lia.
Qed.

Lemma encode_pair_app (kv : string * value) (t : list ascii) :
  encode_pair kv ++ t =
  dquote :: flat_map escape_char (list_ascii_of_string (fst kv))
    ++ dquote :: ":" :: " " :: encode (snd kv) ++ t.
Proof.
  unfold encode_pair. rewrite <- !List.app_assoc, encode_string_app. reflexivity.
Qed.

Lemma scan_object_pair (n : nat) (kv : string * value) (t : list ascii) :
  reads_back (snd kv) ->
  depth (snd kv) <= n ->
  number_end t = true ->
  scan_object (S (S n)) (encode_pair kv ++ t) =
  match skip_ws t with
  | [] => None
  | c3 :: r4 =>
      if Ascii.eqb c3 "}" then Some ([(fst kv, norm (snd kv))], r4)
      else if Ascii.eqb c3 "," then
        match scan_object (S n) (skip_ws r4) with
        | Some (kvs, rest) => Some ((fst kv, norm (snd kv)) :: kvs, rest)
        | None => None
        end
      else None
  end.
Proof.
  intros Hv Hn Ht.
  rewrite encode_pair_app, scan_object_step, scanstring_encoded.
  rewrite (skip_ws_keep ":") by reflexivity.
  change (Ascii.eqb ":" ":") with true. cbv iota.
  rewrite skip_ws_space, skip_ws_encode, (Hv n t Hn Ht).
  rewrite string_of_list_ascii_of_string. reflexivity.
Qed.

Lemma scan_object_encoded (kv : string * value) (kvs : list (string * value)) :
  Forall (fun p => reads_back (snd p)) (kv :: kvs) ->
  forall n rest,
    list_sum (map (fun p => 2 + depth (snd p)) (kv :: kvs)) <= n ->
    scan_object n (join item_separator (map encode_pair (kv :: kvs)) ++ "}" :: rest)
    = Some (map (fun p => (fst p, norm (snd p))) (kv :: kvs), rest).
Proof.
  revert kv. induction kvs as [|q qs IH]; intros kv Hall n rest Hn.
  - inversion Hall as [|? ? Hv _]; subst. simpl in Hn.
    destruct n as [|[|n]]; try lia.
    cbn [map join].
    rewrite (scan_object_pair n kv ("}" :: rest) Hv); [reflexivity | lia | reflexivity].
  - inversion Hall as [|? ? Hv Hrest]; subst.
    simpl in Hn.
    destruct n as [|[|n]]; try lia.
    change (map encode_pair (kv :: q :: qs))
      with (encode_pair kv :: encode_pair q :: map encode_pair qs).
    rewrite join_cons_cons, <- !List.app_assoc.
    rewrite (scan_object_pair n kv _ Hv); [| lia | reflexivity].
    cbn [item_separator app].
    rewrite (skip_ws_keep ","), skip_ws_space by reflexivity.
    change (Ascii.eqb "," "}") with false.
    change (Ascii.eqb "," ",") with true. cbv iota.
    assert (Hskip : forall t,
               skip_ws (join item_separator (encode_pair q :: map encode_pair qs) ++ t)
               = join item_separator (encode_pair q :: map encode_pair qs) ++ t).
    { intros t. destruct (map encode_pair qs) as [|p ps].
      - simpl join. rewrite encode_pair_app. reflexivity.
      - rewrite join_cons_cons, <- List.app_assoc, encode_pair_app. reflexivity. }
    rewrite Hskip.
    change (encode_pair q :: map encode_pair qs) with (map encode_pair (q :: qs)).
    rewrite (IH q Hrest (S n) rest); [reflexivity|].
    simpl. lia.
Qed.

Theorem scan_once_encoded (v : value) : reads_back v.
Proof.
  induction v as [| b | z | s | xs IH | kvs IH] using value_ind;
    intros n rest Hn Hrest.
  - reflexivity.
  - destruct b; reflexivity.
  - cbn [encode].
    destruct (encode_int_head z) as (c & cs & Hc & Hd).
    pose proof (scan_number_encoded z rest Hrest) as Hscan.
    rewrite Hc in *. cbn [app] in *.
    rewrite (scan_once_number n c _ Hd). exact Hscan.
  - cbn [encode]. rewrite encode_string_app, scan_once_string, scanstring_encoded.
    rewrite string_of_list_ascii_of_string. reflexivity.
  - destruct xs as [|x xs]; [reflexivity|].
    cbn [encode norm depth] in *.
    rewrite <- app_comm_cons, <- List.app_assoc. cbn [app].
    destruct (encode_head x) as (c & cs & Hc & Hs).
    assert (Hj : exists t, join item_separator (map encode (x :: xs)) ++ "]" :: rest
                           = c :: t).
    { cbn [map]. destruct (map encode xs) as [|p ps].
      - simpl join. rewrite Hc. eexists. reflexivity.
      - rewrite join_cons_cons, Hc. eexists. reflexivity. }
    destruct Hj as (t & Ht).
    pose proof (scan_array_encoded x xs IH n rest Hn) as Harr.
    rewrite Ht in *.
    rewrite (scan_once_array n c t Hs), Harr. reflexivity.
  - destruct kvs as [|kv kvs]; [reflexivity|].
    cbn [encode norm depth] in *.
    rewrite <- app_comm_cons, <- List.app_assoc. cbn [app].
    pose proof (scan_object_encoded kv kvs IH n rest Hn) as Hobj.
    assert (Hj : exists t, join item_separator (map encode_pair (kv :: kvs)) ++ "}" :: rest
                           = dquote :: t).
    { cbn [map]. destruct (map encode_pair kvs) as [|p ps].
      - simpl join. rewrite encode_pair_app. eexists. reflexivity.
      - rewrite join_cons_cons, <- !List.app_assoc, encode_pair_app. eexists. reflexivity. }
    destruct Hj as (t & Ht).
    change (map (fun kv0 => encode_string (fst kv0) ++ key_separator ++ encode (snd kv0))
                (kv :: kvs)) with (map encode_pair (kv :: kvs)).
    rewrite Ht in *.
    rewrite scan_once_object, Hobj. reflexivity.
Qed.

(** *** The fuel [loads] gives is enough *)

Lemma list_sum_map_le {A : Type} (f g : A -> nat) (l : list A) :
  Forall (fun x => f x <= g x) l ->
  list_sum (map f l) <= list_sum (map g l).
Proof.
  induction 1 as [|x l Hx _ IH]; simpl; lia.
Qed.

Lemma join_length (sep : list ascii) (parts : list (list ascii)) :
  list_sum (map (fun p => length p + length sep) parts)
  <= length (join sep parts) + length sep.
Proof.
  induction parts as [|p [|q ps] IH].
  - simpl. lia.
  - simpl. lia.
  - rewrite join_cons_cons, !length_app.
    rewrite map_cons. unfold list_sum in *. cbn [fold_right]. lia.
Qed.

Lemma depth_le_length (v : value) : depth v <= length (encode v).
Proof.
  induction v as [| b | z | s | xs IH | kvs IH] using value_ind;
    try (simpl; lia).
  - cbn [depth encode]. cbn [length]. rewrite length_app. cbn [length].
    pose proof (join_length item_separator (map encode xs)) as Hj.
    rewrite map_map in Hj. cbn [item_separator length] in Hj.
    assert (Hle : list_sum (map (fun x => 2 + depth x) xs)
                  <= list_sum (map (fun x => length (encode x) + 2) xs)).
    { apply list_sum_map_le. eapply Forall_impl; [|exact IH].
      cbv beta. intros x Hx. lia. }
    cbn [item_separator]. lia.
  - cbn [depth encode]. cbn [length]. rewrite length_app. cbn [length].
    pose proof (join_length item_separator (map encode_pair kvs)) as Hj.
    rewrite map_map in Hj. cbn [item_separator length] in Hj.
    assert (Hle : list_sum (map (fun p => 2 + depth (snd p)) kvs)
                  <= list_sum (map (fun p => length (encode_pair p) + 2) kvs)).
    { apply list_sum_map_le. eapply Forall_impl; [|exact IH].
      cbv beta. intros p Hp. unfold encode_pair. rewrite !length_app. lia. }
    change (map (fun kv0 => encode_string (fst kv0) ++ key_separator ++ encode (snd kv0)) kvs)
      with (map encode_pair kvs).
    cbn [item_separator]. lia.
Qed.

(** [json.loads(json.dumps(v))] returns, and returns [norm v]. *)
Theorem loads_dumps (v : value) : loads (dumps v) = Some (norm v).
Proof.
  unfold loads, dumps.
  rewrite list_ascii_of_string_of_list_ascii.
  pose proof (skip_ws_encode v []) as Hskip. rewrite List.app_nil_r in Hskip.
  rewrite Hskip.
  pose proof (scan_once_encoded v (length (encode v)) [] (depth_le_length v) eq_refl)
    as Hscan.
  rewrite List.app_nil_r in Hscan. rewrite Hscan. reflexivity.
Qed.

(** *** Values no dict of which repeats a key *)

Lemma norm_wf (v : value) : wf v -> norm v = v.
Proof.
  induction v as [| b | z | s | xs IH | kvs IH] using value_ind;
    try reflexivity; cbn [wf norm].
  - intros Hwf. f_equal.
    induction IH as [|x xs Hx _ IHxs]; [reflexivity|].
    destruct Hwf as [Hwx Hwxs]. simpl. rewrite (Hx Hwx), (IHxs Hwxs). reflexivity.
  - intros [Hnd Hwf]. f_equal.
    assert (Hmap : map (fun kv => (fst kv, norm (snd kv))) kvs = kvs).
    { clear Hnd. induction IH as [|[k v] kvs Hv _ IHkvs]; [reflexivity|].
      destruct Hwf as [Hwv Hwkvs]. simpl in *.
      rewrite (Hv Hwv), (IHkvs Hwkvs). reflexivity. }
    rewrite Hmap. apply DictFacts.dict_of_pairs_nodup. exact Hnd.
Qed.

Theorem loads_dumps_wf (v : value) : wf v -> loads (dumps v) = Some v.
Proof.
  intros H. rewrite loads_dumps, (norm_wf v H). reflexivity.
Qed.

End JsonFacts.

(** ** Calls on a Response *)

Module ResponseFacts.
Import DictFacts.

Lemma sequences_ok_dict (d : dict) :
  sequences_ok (mkResponse (VDict d)) <->
  exists fs ats, dict_get "files" d = Some (VList fs) /\
                 dict_get "attachments" d = Some (VList ats).
Proof.
  unfold sequences_ok, files, attachments, getter, getitem. simpl.
  split; intros (fs & ats & Hf & Ha); exists fs, ats.
  - destruct (dict_get "files" d); [|discriminate].
    destruct (dict_get "attachments" d); [|discriminate].
    split; congruence.
  - rewrite Hf, Ha. auto.
Qed.

Lemma sequences_ok_attributes (r : Response) :
  sequences_ok r -> exists d, attributes r = VDict d.
Proof.
  intros (fs & _ & Hf & _). unfold files, getter, getitem in Hf.
  destruct (attributes r); try discriminate. eauto.
Qed.

(** A pass-through setter on a dict record stores the value. *)
Lemma setter_dict (k : string) (val : value) (d : dict) :
  setter k val (mkResponse (VDict d)) = Ok (mkResponse (VDict (dict_set k val d))).
Proof. reflexivity. Qed.

(** An appending setter on a record holding a list under its key stores
    the list with the value added at the end. *)
Lemma appender_dict (k : string) (val : value) (d : dict) (xs : list value) :
  dict_get k d = Some (VList xs) ->
  appender k val (mkResponse (VDict d))
  = Ok (mkResponse (VDict (dict_set k (VList (xs ++ [val])) d))).
Proof.
  intros H. unfold appender, getitem. simpl. rewrite H. reflexivity.
Qed.

Lemma sequences_ok_set_other (k : string) (val : value) (d : dict) :
  k <> "files" -> k <> "attachments" ->
  sequences_ok (mkResponse (VDict d)) ->
  sequences_ok (mkResponse (VDict (dict_set k val d))).
Proof.
  intros Hf Ha. rewrite !sequences_ok_dict. intros (fs & ats & H1 & H2).
  exists fs, ats. rewrite !dict_get_set_other by congruence. auto.
Qed.

(** One call on a record with both sequences succeeds, keeps both
    sequences, and keeps the keys when the schema's keys are there. *)
Lemma perform_step (c : call) (d : dict) :
  sequences_ok (mkResponse (VDict d)) ->
  exists d', perform c (mkResponse (VDict d)) = Ok (mkResponse (VDict d')) /\
             sequences_ok (mkResponse (VDict d')) /\
             (incl canonical_keys (keys d) -> keys d' = keys d).
Proof.
  intros Hok.
  assert (Hkeys : forall k v, In k canonical_keys ->
                    incl canonical_keys (keys d) -> keys (dict_set k v d) = keys d).
  { intros k v Hk Hincl. apply keys_dict_set_present. apply Hincl. exact Hk. }
  destruct c as [v|v|v|v|v|v|v| |]; cbn [perform];
    unfold set_text, set_roomId, set_parentId, set_markdown, set_html.
  1, 4, 5, 6, 7:
    rewrite setter_dict; eexists; split; [reflexivity|]; split;
    [ apply sequences_ok_set_other; [discriminate | discriminate | exact Hok]
    | apply Hkeys; simpl; tauto ].
  - apply sequences_ok_dict in Hok. destruct Hok as (fs & ats & Hf & Ha).
    unfold set_files. rewrite (appender_dict _ _ _ _ Hf).
    eexists; split; [reflexivity|]; split.
    + apply sequences_ok_dict. exists (fs ++ [v]), ats.
      rewrite dict_get_set_same, dict_get_set_other by discriminate. auto.
    + apply Hkeys; simpl; tauto.
  - apply sequences_ok_dict in Hok. destruct Hok as (fs & ats & Hf & Ha).
    unfold set_attachments. rewrite (appender_dict _ _ _ _ Ha).
    eexists; split; [reflexivity|]; split.
    + apply sequences_ok_dict. exists fs, (ats ++ [v]).
      rewrite dict_get_set_same, dict_get_set_other by discriminate. auto.
    + apply Hkeys; simpl; tauto.
  - exists d. auto.
  - exists d. auto.
Qed.

Lemma perform_all_steps (cs : list call) (d : dict) :
  sequences_ok (mkResponse (VDict d)) ->
  exists d', perform_all cs (mkResponse (VDict d)) = Ok (mkResponse (VDict d')) /\
             sequences_ok (mkResponse (VDict d')) /\
             (incl canonical_keys (keys d) -> keys d' = keys d).
Proof.
  revert d. induction cs as [|c cs IH]; intros d Hok.
  - exists d. simpl. auto.
  - destruct (perform_step c d Hok) as (d1 & Hc & Hok1 & Hk1).
    destruct (IH d1 Hok1) as (d2 & Hcs & Hok2 & Hk2).
    exists d2. cbn [perform_all]. rewrite Hc. cbn [bind].
    split; [exact Hcs|]. split; [exact Hok2|].
    intros Hincl. rewrite Hk2; [apply Hk1; exact Hincl|].
    rewrite (Hk1 Hincl). exact Hincl.
Qed.

Lemma sequences_ok_new : sequences_ok Response_new.
Proof. exists [], []. split; reflexivity. Qed.

Lemma canonical_keys_nodup : NoDup canonical_keys.
Proof.
  unfold canonical_keys.
  repeat (constructor; [simpl; intuition discriminate|]). constructor.
Qed.

(** On a dict record [as_dict] returns the truthy pairs, in order. *)
Lemma as_dict_filter (d : dict) :
  NoDup (keys d) ->
  as_dict (mkResponse (VDict d)) = Ok (filter (fun kv => truthy (snd kv)) d).
Proof.
  intros Hnd. unfold as_dict. simpl.
  rewrite (as_dict_loop_filter d []); [reflexivity | exact Hnd].
Qed.

Lemma dict_get_map_norm (k : string) (d : dict) :
  dict_get k (map (fun kv => (fst kv, Json.norm (snd kv))) d)
  = option_map Json.norm (dict_get k d).
Proof.
  induction d as [|[k' v'] d IH]; simpl; [reflexivity|].
  destruct (String.eqb k k'); auto.
Qed.

Lemma falsy_norm (v : value) : truthy v = false -> Json.norm v = v.
Proof.
  destruct v as [| b | n | s | [|x xs] | [|kv kvs]]; simpl; intros H;
    first [reflexivity | discriminate H].
Qed.

Lemma getter_dict (k : string) (d : dict) (v : value) :
  getter k (mkResponse (VDict d)) = Ok v <-> dict_get k d = Some v.
Proof.
  unfold getter, getitem. simpl.
  destruct (dict_get k d); split; intros H; congruence.
Qed.

End ResponseFacts.

(** * The properties of the specification *)

Import DictFacts ResponseFacts.

(** C6: a Response constructed with no input has [files == []] and
    [attachments == []], and its five scalar fields [text], [markdown],
    [html], [roomId] and [parentId] are None; its record holds the seven
    keys of the schema and no other. *)
Theorem default_response_fields :
  files Response_new = Ok (VList []) /\
  attachments Response_new = Ok (VList []) /\
  text Response_new = Ok VNone /\
  markdown Response_new = Ok VNone /\
  html Response_new = Ok VNone /\
  roomId Response_new = Ok VNone /\
  parentId Response_new = Ok VNone /\
  exists d, attributes Response_new = VDict d /\ keys d = canonical_keys.
Proof.
  repeat split. eexists. split; reflexivity.
Qed.

(** C4: on a default-constructed Response, the [files] setter called with
    [a] and then with [b] leaves [files == [a, b]]: each assignment appends.
    The same holds for the [attachments] setter. *)
Theorem setters_append (a b : value) :
  (exists r1 r2, set_files a Response_new = Ok r1 /\ set_files b r1 = Ok r2 /\
                 files r2 = Ok (VList [a; b])) /\
  (exists r1 r2, set_attachments a Response_new = Ok r1 /\
                 set_attachments b r1 = Ok r2 /\
                 attachments r2 = Ok (VList [a; b])).
Proof.
  split; eexists; eexists; repeat split.
Qed.

(** C1: [response_custom_format("hi", "**hi**", files=["f1.png"])] returns
    a Response with text ["hi"], markdown ["**hi**"] and
    [as_dict()["files"] == [["f1.png"]]].  In general a supplied non-empty
    [files] sequence becomes the single element of [files], nested and not
    flattened, and so does a supplied [attachments] sequence. *)
Theorem custom_format_nests_sequences :
  (exists r,
      response_custom_format (VStr "hi") (VStr "**hi**") (VList [VStr "f1.png"]) VNone
      = Ok r /\
      text r = Ok (VStr "hi") /\
      markdown r = Ok (VStr "**hi**") /\
      exists m, as_dict r = Ok m /\
                dict_get "files" m = Some (VList [VList [VStr "f1.png"]])) /\
  (forall t m x xs ats, exists r,
      response_custom_format t m (VList (x :: xs)) ats = Ok r /\
      files r = Ok (VList [VList (x :: xs)])) /\
  (forall t m fs x xs, exists r,
      response_custom_format t m fs (VList (x :: xs)) = Ok r /\
      attachments r = Ok (VList [VList (x :: xs)])).
Proof.
  split; [|split].
  - eexists. split; [reflexivity|]. repeat split. eexists. split; reflexivity.
  - intros t m x xs ats. unfold response_custom_format. cbn.
    destruct (truthy ats); eexists; split; reflexivity.
  - intros t m fs x xs. unfold response_custom_format. cbn.
    destruct (truthy fs); eexists; split; reflexivity.
Qed.

(** C3: for every card, [response_from_adaptive_card(card)] returns a
    Response whose text and markdown are the fallback sentence and whose
    attachments hold exactly one entry, the mapping of ["contentType"] to
    the adaptive-card MIME type and of ["content"] to [card.to_dict()]. *)
Theorem adaptive_card_response {C : Type} `{AdaptiveCard C} (card : C) :
  exists r,
    response_from_adaptive_card card = Ok r /\
    text r = Ok (VStr "This bot requires a client which can render cards.") /\
    markdown r = Ok (VStr "This bot requires a client which can render cards.") /\
    attachments r
    = Ok (VList [VDict [("contentType", VStr "application/vnd.microsoft.card.adaptive");
                        ("content", to_dict card)]]).
Proof.
  eexists. repeat split.
Qed.

(** C9: constructing a Response with an empty mapping gives the state of
    the default construction: the empty mapping is falsy, so the record is
    the seven keys with their defaults, all of them falsy. *)
Theorem empty_mapping_is_default :
  Response_init (VDict []) = Response_new /\
  attributes (Response_init (VDict [])) = VDict default_attributes /\
  keys default_attributes = canonical_keys /\
  Forall (fun k => exists v, getter k (Response_init (VDict [])) = Ok v /\
                             truthy v = false)
         canonical_keys.
Proof.
  repeat split.
  repeat (constructor; [eexists; split; reflexivity|]). constructor.
Qed.

(** C10: [response_custom_format] with an empty [files] sequence does what
    it does with [files] omitted, the appending setter is not called, and
    the Response has [files == []] and not [[[]]]; the same holds for an
    empty [attachments] sequence. *)
Theorem custom_format_skips_empty (t m : value) :
  (forall ats, response_custom_format t m (VList []) ats
               = response_custom_format t m VNone ats) /\
  (forall fs, response_custom_format t m fs (VList [])
              = response_custom_format t m fs VNone) /\
  (forall ats, exists r, response_custom_format t m (VList []) ats = Ok r /\
                         files r = Ok (VList [])) /\
  (forall fs, exists r, response_custom_format t m fs (VList []) = Ok r /\
                        attachments r = Ok (VList [])).
Proof.
  repeat split.
  - intros ats. unfold response_custom_format. cbn.
    destruct (truthy ats); eexists; split; reflexivity.
  - intros fs. unfold response_custom_format. cbn.
    destruct (truthy fs); eexists; split; reflexivity.
Qed.

(** C8 as stated fails at the empty mapping: the constructor does not keep
    it as the record, it builds the default record of seven keys. *)
Lemma empty_mapping_not_used :
  attributes (Response_init (VDict [])) = VDict default_attributes /\
  attributes (Response_init (VDict [])) <> VDict [].
Proof. split; [reflexivity | discriminate]. Qed.

(** C8, for truthy arguments: for every truthy [attributes] argument, so for every
    non-empty mapping, the constructor keeps the argument itself as the
    record: it adds no default key and checks nothing. *)
Theorem truthy_attributes_used_directly (attrs : value) :
  truthy attrs = true ->
  Response_init attrs = mkResponse attrs.
Proof.
  intros H. unfold Response_init. rewrite H. reflexivity.
Qed.

(** A mapping with one key and none of the defaults is kept as it is. *)
Lemma truthy_attributes_used_directly_witness :
  truthy (VDict [("text", VStr "hi")]) = true /\
  Response_init (VDict [("text", VStr "hi")]) = mkResponse (VDict [("text", VStr "hi")]).
Proof.
  split; [reflexivity|].
  apply (truthy_attributes_used_directly (VDict [("text", VStr "hi")])). reflexivity.
Defined.

(** C2: for every Response whose record is a dict, [as_dict()] returns the
    pairs of the record with a truthy value, in order: a key is in the
    result with a value exactly when the record has it with that value and
    the value is truthy. *)
Theorem as_dict_truthy_fields (r : Response) (d : dict) :
  attributes r = VDict d ->
  NoDup (keys d) ->
  exists m, as_dict r = Ok m /\
            m = filter (fun kv => truthy (snd kv)) d /\
            forall k v, dict_get k m = Some v <->
                        dict_get k d = Some v /\ truthy v = true.
Proof.
  intros Hd Hnd. destruct r as [a]. simpl in Hd. subst a.
  eexists. split; [apply as_dict_filter; exact Hnd|]. split; [reflexivity|].
  intros k v. apply (dict_get_filter (fun kv => truthy (snd kv)) k v d Hnd).
Qed.

(** A record with two truthy and three falsy fields. *)
Lemma as_dict_truthy_fields_witness :
  let d := [("text", VStr "hi"); ("roomId", VNone); ("files", VList []);
            ("html", VStr EmptyString); ("attachments", VList [VStr "a"])] in
  exists m, as_dict (mkResponse (VDict d)) = Ok m /\
            m = filter (fun kv => truthy (snd kv)) d /\
            forall k v, dict_get k m = Some v <->
                        dict_get k d = Some v /\ truthy v = true.
Proof.
  intros d. apply (as_dict_truthy_fields (mkResponse (VDict d)) d).
  - reflexivity.
  - repeat (constructor; [simpl; intuition discriminate|]). constructor.
Defined.

(** C7 as stated fails for a Response constructed from a mapping: the
    record is the mapping, so [files] is None when the mapping says so and
    [attachments] is missing when the mapping lacks it. *)
Lemma mapping_with_null_files :
  files (Response_init (VDict [("text", VStr "hi"); ("files", VNone)])) = Ok VNone /\
  attachments (Response_init (VDict [("text", VStr "hi"); ("files", VNone)]))
  = Raise (KeyError "attachments").
Proof. split; reflexivity. Qed.

(** C7, for records holding both sequences: for a Response constructed
    with no or a falsy argument, or from a mapping that holds a sequence
    under [files] and under [attachments], both fields hold a sequence
    after every sequence of setter, [as_dict] and [json] calls that runs
    to its end, and a sequence of setter and [as_dict] calls always does.
    A Response constructed from any other truthy argument holds under
    [files] and [attachments] what the argument holds there. *)
Theorem sequences_stay_sequences (attrs : value) (cs : list call) :
  (truthy attrs = false \/ sequences_ok (mkResponse attrs) ->
   (forall r, perform_all cs (Response_init attrs) = Ok r -> sequences_ok r) /\
   (existsb is_json_call cs = false ->
    exists r, perform_all cs (Response_init attrs) = Ok r /\ sequences_ok r)) /\
  (truthy attrs = true ->
   files (Response_init attrs) = getitem attrs "files" /\
   attachments (Response_init attrs) = getitem attrs "attachments").
Proof.
  split.
  - intros Hattrs.
    assert (Hinit : exists d, Response_init attrs = mkResponse (VDict d) /\
                              sequences_ok (mkResponse (VDict d))).
    { destruct Hattrs as [Hfalse|Hok].
      - exists default_attributes. unfold Response_init. rewrite Hfalse.
        split; [reflexivity | exact sequences_ok_new].
      - destruct (sequences_ok_attributes _ Hok) as (d & Hd). simpl in Hd. subst attrs.
        exists d. split; [|exact Hok].
        apply sequences_ok_dict in Hok. destruct Hok as (fs & _ & Hf & _).
        destruct d; [discriminate Hf | reflexivity]. }
    destruct Hinit as (d & -> & Hok).
    destruct (perform_all_steps cs d Hok) as (d' & Hrun & Hok' & _).
    split.
    + intros r Hr. rewrite Hrun in Hr. injection Hr as <-. exact Hok'.
    + intros _. eauto.
  - intros Htrue. unfold Response_init. rewrite Htrue. split; reflexivity.
Qed.

(** Calls on a default-constructed Response, and a mapping whose [files]
    is None and whose [attachments] is missing. *)
Lemma sequences_stay_sequences_witness :
  (forall r,
      perform_all [SetFiles (VStr "a.png"); CallJson; SetAttachments VNone]
                  (Response_init VNone) = Ok r ->
      sequences_ok r) /\
  (exists r,
      perform_all [SetFiles (VStr "a.png"); SetText (VStr "hi"); CallAsDict;
                   SetAttachments VNone]
                  (Response_init VNone) = Ok r /\
      sequences_ok r) /\
  (files (Response_init (VDict [("text", VStr "hi"); ("files", VNone)]))
   = getitem (VDict [("text", VStr "hi"); ("files", VNone)]) "files" /\
   attachments (Response_init (VDict [("text", VStr "hi"); ("files", VNone)]))
   = getitem (VDict [("text", VStr "hi"); ("files", VNone)]) "attachments").
Proof.
  split; [|split].
  - exact (proj1 (proj1 (sequences_stay_sequences VNone
                           [SetFiles (VStr "a.png"); CallJson; SetAttachments VNone])
                    (or_introl eq_refl))).
  - apply (proj2 (proj1 (sequences_stay_sequences VNone
                           [SetFiles (VStr "a.png"); SetText (VStr "hi"); CallAsDict;
                            SetAttachments VNone])
                    (or_introl eq_refl))).
    reflexivity.
  - apply (proj2 (sequences_stay_sequences
                    (VDict [("text", VStr "hi"); ("files", VNone)]) [])).
    reflexivity.
Defined.

(** C5: [json()] writes the whole record: read back, its text is the
    record.  For a default-constructed Response after any calls of its
    setters, the text read back is a mapping with the seven keys of the
    schema, and a field whose value is falsy is there with that value,
    while [as_dict()] of the same Response has no such key. *)
Theorem json_keeps_falsy_fields :
  (forall r, Json.loads (json r) = Some (Json.norm (attributes r))) /\
  (Json.loads (json Response_new) = Some (VDict default_attributes) /\
   as_dict Response_new = Ok []) /\
  (forall cs, exists r,
      perform_all cs Response_new = Ok r /\
      exists d m,
        Json.loads (json r) = Some (VDict d) /\
        keys d = canonical_keys /\
        as_dict r = Ok m /\
        forall k v, getter k r = Ok v -> truthy v = false ->
                    dict_get k d = Some v /\ dict_get k m = None).
Proof.
  split; [|split].
  - intros r. apply JsonFacts.loads_dumps.
  - split; reflexivity.
  - intros cs.
    destruct (perform_all_steps cs default_attributes sequences_ok_new)
      as (d' & Hrun & _ & Hkeys).
    specialize (Hkeys (incl_refl _)).
    change (keys default_attributes) with canonical_keys in Hkeys.
    assert (Hnd : NoDup (keys d')) by (rewrite Hkeys; exact canonical_keys_nodup).
    exists (mkResponse (VDict d')). split; [exact Hrun|].
    set (d := map (fun kv => (fst kv, Json.norm (snd kv))) d').
    assert (Hd : keys d = keys d').
    { unfold d, keys. rewrite map_map. reflexivity. }
    exists d, (filter (fun kv => truthy (snd kv)) d').
    split; [|split; [|split]].
    + unfold json. rewrite JsonFacts.loads_dumps. cbn [attributes Json.norm].
      fold d. rewrite dict_of_pairs_nodup; [reflexivity|]. rewrite Hd. exact Hnd.
    + rewrite Hd. exact Hkeys.
    + apply as_dict_filter. exact Hnd.
    + intros k v Hget Hfalsy. apply getter_dict in Hget. split.
      * unfold d. rewrite dict_get_map_norm, Hget. simpl.
        rewrite (falsy_norm v Hfalsy). reflexivity.
      * destruct (dict_get k (filter (fun kv => truthy (snd kv)) d')) as [v'|] eqn:E;
          [|reflexivity].
        apply (dict_get_filter (fun kv => truthy (snd kv)) k v' d' Hnd) in E.
        destruct E as [E1 E2]. simpl in E2. congruence.
Qed.

(** After [text] and [files] are set, [html] and [attachments] are still
    falsy: the text read back has them, [as_dict()] does not. *)
Lemma json_keeps_falsy_fields_witness :
  exists r,
    perform_all [SetText (VStr "hi"); SetFiles (VStr "f1.png")] Response_new = Ok r /\
    exists d m,
      Json.loads (json r) = Some (VDict d) /\
      keys d = canonical_keys /\
      as_dict r = Ok m /\
      (dict_get "html" d = Some VNone /\ dict_get "html" m = None) /\
      (dict_get "attachments" d = Some (VList []) /\ dict_get "attachments" m = None).
Proof.
  destruct (proj2 (proj2 json_keeps_falsy_fields)
              [SetText (VStr "hi"); SetFiles (VStr "f1.png")])
    as (r & Hrun & d & m & Hloads & Hkeys & Hdict & Hfalsy).
  exists r. split; [exact Hrun|]. exists d, m.
  cbn in Hrun. injection Hrun as <-.
  repeat split; try assumption.
  - apply (Hfalsy "html" VNone); reflexivity.
  - apply (Hfalsy "html" VNone); reflexivity.
  - apply (Hfalsy "attachments" (VList [])); reflexivity.
  - apply (Hfalsy "attachments" (VList [])); reflexivity.
Defined.

(** * Further properties of the module *)

(** ** More facts about dicts *)

Module MoreDictFacts.

Lemma dict_set_twice (k : string) (v1 v2 : value) (d : dict) :
  dict_set k v2 (dict_set k v1 d) = dict_set k v2 d.
Proof.
  induction d as [|[k0 v0] d IH]; simpl.
  - rewrite String.eqb_refl. reflexivity.
  - destruct (String.eqb k k0) eqn:E; simpl; rewrite E; [reflexivity|].
    rewrite IH. reflexivity.
Qed.

Lemma dict_set_swap (k1 k2 : string) (v1 v2 : value) (d : dict) :
  k1 <> k2 ->
  In k1 (keys d) \/ In k2 (keys d) ->
  dict_set k1 v1 (dict_set k2 v2 d) = dict_set k2 v2 (dict_set k1 v1 d).
Proof.
  intros Hne. induction d as [|[k0 v0] d IH]; simpl.
  - tauto.
  - intros Hin.
    destruct (String.eqb_spec k1 k0) as [->|H1];
      destruct (String.eqb_spec k2 k0) as [->|H2]; simpl.
    + contradiction.
    + rewrite String.eqb_refl. destruct (String.eqb_spec k2 k0); [contradiction|].
      reflexivity.
    + rewrite String.eqb_refl. destruct (String.eqb_spec k1 k0); [contradiction|].
      reflexivity.
    + destruct (String.eqb_spec k1 k0); [contradiction|].
      destruct (String.eqb_spec k2 k0); [contradiction|].
      rewrite IH; [reflexivity|]. destruct Hin as [[?|?]|[?|?]]; try congruence; auto.
Qed.

Lemma keys_dict_set_absent (k : string) (v : value) (d : dict) :
  ~ In k (keys d) -> keys (dict_set k v d) = keys d ++ [k].
Proof.
  intros H. rewrite (dict_set_fresh k v d H), keys_app. reflexivity.
Qed.

Lemma keys_dict_set_nodup (k : string) (v : value) (d : dict) :
  NoDup (keys d) -> NoDup (keys (dict_set k v d)).
Proof.
  intros Hnd. destruct (in_dec string_dec k (keys d)) as [Hin|Hout].
  - rewrite keys_dict_set_present; assumption.
  - rewrite keys_dict_set_absent by assumption.
    apply NoDup_app; [exact Hnd | repeat constructor; simpl; tauto |].
    intros a Ha [<-|[]]. contradiction.
Qed.

Lemma filter_twice {A : Type} (f : A -> bool) (l : list A) :
  filter f (filter f l) = filter f l.
Proof.
  induction l as [|x l IH]; simpl; [reflexivity|].
  destruct (f x) eqn:E; simpl; [rewrite E, IH; reflexivity | exact IH].
Qed.

Lemma keys_filter_nodup (f : string * value -> bool) (d : dict) :
  NoDup (keys d) -> NoDup (keys (filter f d)).
Proof.
  induction d as [|[k v] d IH]; simpl; intros Hnd; [constructor|].
  inversion Hnd as [|? ? Hk Hd]; subst.
  destruct (f (k, v)); simpl; [|auto].
  constructor; [|auto]. intros Hin. apply Hk.
  unfold keys in *. apply in_map_iff in Hin. destruct Hin as ([k0 v0] & <- & Hin).
  apply filter_In in Hin. apply in_map_iff. exists (k0, v0). tauto.
Qed.

(** The lookup in the truthy pairs of a dict. *)
Lemma dict_get_truthy (k : string) (d : dict) :
  NoDup (keys d) ->
  dict_get k (filter (fun kv => truthy (snd kv)) d)
  = match dict_get k d with
    | Some v => if truthy v then Some v else None
    | None => None
    end.
Proof.
  intros Hnd.
  destruct (dict_get k (filter (fun kv => truthy (snd kv)) d)) as [v|] eqn:E.
  - apply (dict_get_filter _ k v d Hnd) in E. destruct E as [E1 E2]. simpl in E2.
    rewrite E1, E2. reflexivity.
  - destruct (dict_get k d) as [v|] eqn:E1; [|reflexivity].
    destruct (truthy v) eqn:E2; [|reflexivity].
    assert (H : dict_get k (filter (fun kv => truthy (snd kv)) d) = Some v).
    { apply (dict_get_filter _ k v d Hnd). auto. }
    congruence.
Qed.

Lemma getter_mapping (k : string) (d : dict) :
  getter k (mkResponse (VDict d))
  = match dict_get k d with
    | Some v => Ok v
    | None => Raise (KeyError k)
    end.
Proof. reflexivity. Qed.

End MoreDictFacts.

(** ** Facts about sequences of calls *)

Module CallFacts.

(** A call that assigns to a field stores a value under the field's key,
    and the value depends on the record only through what the key holds. *)
Lemma perform_assigns (c : call) (k : string) (d : dict) :
  sequences_ok (mkResponse (VDict d)) ->
  call_field c = Some k ->
  exists v,
    forall d2, dict_get k d2 = dict_get k d ->
               perform c (mkResponse (VDict d2)) = Ok (mkResponse (VDict (dict_set k v d2))).
Proof.
  intros Hok Hk. apply sequences_ok_dict in Hok. destruct Hok as (fs & ats & Hf & Ha).
  destruct c as [v|v|v|v|v|v|v| |]; simpl in Hk; try discriminate;
    injection Hk as <-.
  1, 4, 5, 6, 7: exists v; intros d2 _; reflexivity.
  - exists (VList (fs ++ [v])). intros d2 H2. cbn [perform]. unfold set_files.
    apply appender_dict. congruence.
  - exists (VList (ats ++ [v])). intros d2 H2. cbn [perform]. unfold set_attachments.
    apply appender_dict. congruence.
Qed.

Lemma perform_reads (c : call) (d : dict) :
  call_field c = None -> perform c (mkResponse (VDict d)) = Ok (mkResponse (VDict d)).
Proof.
  destruct c; simpl; intros H; try discriminate; reflexivity.
Qed.

Lemma call_field_canonical (c : call) (k : string) :
  call_field c = Some k -> In k canonical_keys.
Proof.
  destruct c; simpl; intros H; try discriminate; injection H as <-; tauto.
Qed.

(** What the calls leave in the record. *)
Lemma perform_all_summary (cs : list call) :
  forall (d : dict) (fs ats : list value),
    dict_get "files" d = Some (VList fs) ->
    dict_get "attachments" d = Some (VList ats) ->
    exists d',
      perform_all cs (mkResponse (VDict d)) = Ok (mkResponse (VDict d')) /\
      dict_get "files" d' = Some (VList (fs ++ files_of cs)) /\
      dict_get "attachments" d' = Some (VList (ats ++ attachments_of cs)) /\
      forall k v, k <> "files" -> k <> "attachments" ->
                  dict_get k d = Some v ->
                  dict_get k d' = Some (last_assigned k cs v).
Proof.
  induction cs as [|c cs IH]; intros d fs ats Hf Ha.
  - exists d. simpl. rewrite !List.app_nil_r. auto.
  - assert (Hscalar : forall key val,
               key <> "files" -> key <> "attachments" ->
               perform c (mkResponse (VDict d))
               = Ok (mkResponse (VDict (dict_set key val d))) ->
               scalar_assignment c = Some (key, val) ->
               files_of (c :: cs) = files_of cs ->
               attachments_of (c :: cs) = attachments_of cs ->
               exists d',
                 perform_all (c :: cs) (mkResponse (VDict d)) = Ok (mkResponse (VDict d')) /\
                 dict_get "files" d' = Some (VList (fs ++ files_of (c :: cs))) /\
                 dict_get "attachments" d' = Some (VList (ats ++ attachments_of (c :: cs))) /\
                 forall k v, k <> "files" -> k <> "attachments" ->
                             dict_get k d = Some v ->
                             dict_get k d' = Some (last_assigned k (c :: cs) v)).
    { intros key val Hkf Hka Hperf Hsc Hfo Hao.
      destruct (IH (dict_set key val d) fs ats) as (d' & Hrun & Hf' & Ha' & Hs').
      - rewrite dict_get_set_other by congruence. exact Hf.
      - rewrite dict_get_set_other by congruence. exact Ha.
      - exists d'. cbn [perform_all]. rewrite Hperf. cbn [bind].
        rewrite Hfo, Hao. repeat split; try assumption.
        intros k v Hk1 Hk2 Hget. cbn [last_assigned]. rewrite Hsc.
        destruct (String.eqb_spec k key) as [->|Hne].
        + apply Hs'; try assumption. apply dict_get_set_same.
        + apply Hs'; try assumption. rewrite dict_get_set_other by exact Hne.
          exact Hget. }
    destruct c as [v|v|v|v|v|v|v| |].
    1, 4, 5, 6, 7:
      eapply Hscalar; try reflexivity; discriminate.
    + destruct (IH (dict_set "files" (VList (fs ++ [v])) d) (fs ++ [v]) ats)
        as (d' & Hrun & Hf' & Ha' & Hs').
      * apply dict_get_set_same.
      * rewrite dict_get_set_other by discriminate. exact Ha.
      * exists d'. cbn [perform_all perform]. unfold set_files.
        rewrite (appender_dict _ _ _ _ Hf). cbn [bind].
        cbn [files_of attachments_of]. rewrite <- List.app_assoc in Hf'.
        repeat split; try assumption.
        intros k v0 Hk1 Hk2 Hget. cbn [last_assigned scalar_assignment].
        apply Hs'; try assumption. rewrite dict_get_set_other by exact Hk1. exact Hget.
    + destruct (IH (dict_set "attachments" (VList (ats ++ [v])) d) fs (ats ++ [v]))
        as (d' & Hrun & Hf' & Ha' & Hs').
      * rewrite dict_get_set_other by discriminate. exact Hf.
      * apply dict_get_set_same.
      * exists d'. cbn [perform_all perform]. unfold set_attachments.
        rewrite (appender_dict _ _ _ _ Ha). cbn [bind].
        cbn [files_of attachments_of]. rewrite <- List.app_assoc in Ha'.
        repeat split; try assumption.
        intros k v0 Hk1 Hk2 Hget. cbn [last_assigned scalar_assignment].
        apply Hs'; try assumption. rewrite dict_get_set_other by exact Hk2. exact Hget.
    + destruct (IH d fs ats Hf Ha) as (d' & Hrun & Hf' & Ha' & Hs').
      exists d'. cbn [perform_all]. rewrite perform_reads by reflexivity. cbn [bind].
      repeat split; assumption.
    + destruct (IH d fs ats Hf Ha) as (d' & Hrun & Hf' & Ha' & Hs').
      exists d'. cbn [perform_all]. rewrite perform_reads by reflexivity. cbn [bind].
      repeat split; assumption.
Qed.

End CallFacts.

(** ** The properties *)

Import MoreDictFacts CallFacts.

(** X1: on a record that is a dict, a pass-through setter ([text],
    [roomId], [parentId], [markdown], [html]) succeeds whether or not the
    key is there, the getter of the same field then returns the value, and
    the getter of every other field returns what it returned before. *)
Theorem setter_then_getter (k : string) (val : value) (d : dict) :
  exists r,
    setter k val (mkResponse (VDict d)) = Ok r /\
    getter k r = Ok val /\
    forall k', k' <> k -> getter k' r = getter k' (mkResponse (VDict d)).
Proof.
  eexists. split; [apply setter_dict|]. split.
  - rewrite getter_mapping, dict_get_set_same. reflexivity.
  - intros k' Hne. rewrite !getter_mapping, dict_get_set_other by exact Hne.
    reflexivity.
Qed.

Lemma setter_then_getter_witness :
  exists r,
    set_markdown (VStr "**hi**") (mkResponse (VDict [("text", VStr "hi")])) = Ok r /\
    markdown r = Ok (VStr "**hi**") /\
    text r = Ok (VStr "hi").
Proof.
  destruct (setter_then_getter "markdown" (VStr "**hi**") [("text", VStr "hi")])
    as (r & Hset & Hget & Hframe).
  exists r. split; [exact Hset|]. split; [exact Hget|].
  unfold text. rewrite (Hframe "text"); [reflexivity | discriminate].
Defined.

(** X2: assigning twice to the same pass-through field is assigning the
    second value once: the setter replaces, it keeps no trace of the first
    value (unlike [files] and [attachments]). *)
Theorem setter_overwrites (k : string) (v1 v2 : value) (r : Response) :
  (r1 <- setter k v1 r ;; setter k v2 r1) = setter k v2 r.
Proof.
  destruct r as [a]. destruct a; try reflexivity.
  unfold setter, setitem. simpl. rewrite dict_set_twice. reflexivity.
Qed.

(** X3: on a record that holds a list under [files] (or [attachments]),
    the appending setter succeeds, the list is the old one with the value
    added at the end, the keys and their order are kept, and every other
    field that holds None, a bool, an int or a str holds it afterwards. *)
Theorem appender_appends (k : string) (val : value) (d : dict) (xs : list value) :
  dict_get k d = Some (VList xs) ->
  exists d',
    appender k val (mkResponse (VDict d)) = Ok (mkResponse (VDict d')) /\
    dict_get k d' = Some (VList (xs ++ [val])) /\
    keys d' = keys d /\
    forall k' v, k' <> k -> immutable v = true ->
                 dict_get k' d = Some v -> dict_get k' d' = Some v.
Proof.
  intros Hk. eexists. split; [apply (appender_dict _ _ _ _ Hk)|].
  split; [apply dict_get_set_same|]. split.
  - apply keys_dict_set_present. exact (dict_get_in_keys _ _ _ Hk).
  - intros k' v Hne _ Hget. rewrite dict_get_set_other by exact Hne. exact Hget.
Qed.

Lemma appender_appends_witness :
  exists d',
    set_files (VStr "b.png")
      (mkResponse (VDict [("files", VList [VStr "a.png"]); ("text", VStr "hi")]))
    = Ok (mkResponse (VDict d')) /\
    dict_get "files" d' = Some (VList [VStr "a.png"; VStr "b.png"]) /\
    keys d' = ["files"; "text"] /\
    dict_get "text" d' = Some (VStr "hi").
Proof.
  destruct (appender_appends "files" (VStr "b.png")
              [("files", VList [VStr "a.png"]); ("text", VStr "hi")] [VStr "a.png"] eq_refl)
    as (d' & Hset & Hget & Hkeys & Hframe).
  exists d'. split; [exact Hset|]. split; [exact Hget|]. split; [exact Hkeys|].
  apply (Hframe "text" (VStr "hi")); [discriminate | reflexivity | reflexivity].
Defined.

(** X4: the appending setter raises KeyError when the record lacks the
    key, and AttributeError when the key holds something that is not a
    list (None, a str, a dict). *)
Theorem appender_raises (k : string) (val : value) (d : dict) :
  (dict_get k d = None ->
   appender k val (mkResponse (VDict d)) = Raise (KeyError k)) /\
  (forall x, dict_get k d = Some x -> (forall xs, x <> VList xs) ->
             appender k val (mkResponse (VDict d)) = Raise AttributeError).
Proof.
  unfold appender, getitem. simpl. split.
  - intros ->. reflexivity.
  - intros x -> Hx. destruct x; try reflexivity. destruct (Hx xs eq_refl).
Qed.

Lemma appender_raises_witness :
  set_attachments (VStr "a") (mkResponse (VDict [("files", VNone)]))
  = Raise (KeyError "attachments") /\
  set_files (VStr "a") (mkResponse (VDict [("files", VNone)])) = Raise AttributeError.
Proof.
  split.
  - apply (proj1 (appender_raises "attachments" (VStr "a") [("files", VNone)])).
    reflexivity.
  - apply (proj2 (appender_raises "files" (VStr "a") [("files", VNone)]) VNone).
    + reflexivity.
    + discriminate.
Defined.

(** X5: a truthy [attributes] argument that is not a mapping is accepted
    by the constructor as it is; every getter and every setter then raises
    TypeError, [as_dict] raises AttributeError, and [json] still writes the
    argument. *)
Theorem non_mapping_attributes (attrs : value) :
  truthy attrs = true ->
  (forall d, attrs <> VDict d) ->
  attributes (Response_init attrs) = attrs /\
  (forall k, getter k (Response_init attrs) = Raise TypeError) /\
  (forall k val, setter k val (Response_init attrs) = Raise TypeError) /\
  (forall k val, appender k val (Response_init attrs) = Raise TypeError) /\
  as_dict (Response_init attrs) = Raise AttributeError /\
  json (Response_init attrs) = Json.dumps attrs.
Proof.
  intros Ht Hd. unfold Response_init. rewrite Ht.
  destruct attrs; try (repeat split; fail).
  destruct (Hd kvs eq_refl).
Qed.

Lemma non_mapping_attributes_witness :
  text (Response_init (VStr "hello")) = Raise TypeError /\
  set_text (VStr "hi") (Response_init (VStr "hello")) = Raise TypeError /\
  set_files (VStr "f") (Response_init (VStr "hello")) = Raise TypeError /\
  as_dict (Response_init (VStr "hello")) = Raise AttributeError.
Proof.
  destruct (non_mapping_attributes (VStr "hello") eq_refl)
    as (_ & Hget & Hset & Happ & Hdict & _).
  - discriminate.
  - split; [apply Hget|]. split; [apply Hset|]. split; [apply Happ | exact Hdict].
Defined.

(** X6: on a record that is a dict, a getter returns a value when the key
    is in the record and raises KeyError with the key when it is not. *)
Theorem getter_key_error (k : string) (d : dict) :
  (In k (keys d) -> exists v, getter k (mkResponse (VDict d)) = Ok v) /\
  (~ In k (keys d) -> getter k (mkResponse (VDict d)) = Raise (KeyError k)).
Proof.
  rewrite getter_mapping. split.
  - intros Hin. destruct (dict_get k d) as [v|] eqn:E; [eauto|].
    exfalso. revert Hin E. induction d as [|[k0 v0] d IH]; simpl; [tauto|].
    destruct (String.eqb_spec k k0); [discriminate|].
    intros [?|?]; [congruence | auto].
  - intros Hout. rewrite (dict_get_not_in_keys k d Hout). reflexivity.
Qed.

Lemma getter_key_error_witness :
  (exists v, text (Response_init (VDict [("text", VStr "hi")])) = Ok v) /\
  roomId (Response_init (VDict [("text", VStr "hi")])) = Raise (KeyError "roomId").
Proof.
  split.
  - apply (proj1 (getter_key_error "text" [("text", VStr "hi")])). simpl. tauto.
  - apply (proj2 (getter_key_error "roomId" [("text", VStr "hi")])).
    simpl. intuition discriminate.
Defined.

(** X16: every falsy [attributes] argument (None, an empty mapping, an
    empty list or string, zero, False) gives the default-constructed
    Response. *)
Theorem falsy_attributes_give_default (attrs : value) :
  truthy attrs = false -> Response_init attrs = Response_new.
Proof.
  intros H. unfold Response_new, Response_init. rewrite H. reflexivity.
Qed.

Lemma falsy_attributes_give_default_witness :
  Response_init (VInt 0) = Response_new /\
  Response_init (VStr EmptyString) = Response_new /\
  Response_init (VList []) = Response_new /\
  Response_init (VBool false) = Response_new.
Proof.
  split; [|split; [|split]];
    apply falsy_attributes_give_default; reflexivity.
Defined.

(** X14: on a default-constructed Response every sequence of [as_dict]
    calls and of setter calls that assign None, a bool, an int or a str
    succeeds; afterwards [files] holds every value assigned to it, in the
    order of the calls, and so does [attachments], and each scalar field
    holds the last value assigned to it, or None when none was. *)
Theorem calls_accumulate (cs : list call) :
  forallb plain_call cs = true ->
  exists r,
    perform_all cs Response_new = Ok r /\
    files r = Ok (VList (files_of cs)) /\
    attachments r = Ok (VList (attachments_of cs)) /\
    Forall (fun k => getter k r = Ok (last_assigned k cs VNone)) scalar_keys.
Proof.
  intros _.
  destruct (perform_all_summary cs default_attributes [] [] eq_refl eq_refl)
    as (d' & Hrun & Hf & Ha & Hs).
  exists (mkResponse (VDict d')). split; [exact Hrun|].
  unfold files, attachments. rewrite !getter_mapping, Hf, Ha.
  split; [reflexivity|]. split; [reflexivity|].
  repeat (constructor;
          [rewrite getter_mapping, (Hs _ VNone); [reflexivity | discriminate | discriminate | reflexivity]|]).
  constructor.
Qed.

Lemma calls_accumulate_witness :
  exists r,
    perform_all [SetText (VStr "a"); SetFiles (VStr "f1.png"); CallAsDict;
                 SetText (VStr "b"); SetFiles (VStr "f2.png")] Response_new = Ok r /\
    files r = Ok (VList [VStr "f1.png"; VStr "f2.png"]) /\
    attachments r = Ok (VList []) /\
    Forall (fun k => getter k r
                     = Ok (last_assigned k
                             [SetText (VStr "a"); SetFiles (VStr "f1.png"); CallAsDict;
                              SetText (VStr "b"); SetFiles (VStr "f2.png")] VNone))
           scalar_keys.
Proof.
  apply (calls_accumulate [SetText (VStr "a"); SetFiles (VStr "f1.png"); CallAsDict;
                           SetText (VStr "b"); SetFiles (VStr "f2.png")]).
  reflexivity.
Defined.

(** X13: on a record that has the seven keys and a list under [files] and
    under [attachments], a pass-through setter call and a setter call on
    another field give the same Response in either order. *)
Theorem calls_on_different_fields_commute (c1 c2 : call) (d : dict) :
  sequences_ok (mkResponse (VDict d)) ->
  incl canonical_keys (keys d) ->
  scalar_assignment c1 <> None ->
  call_field c2 <> None ->
  call_field c1 <> call_field c2 ->
  perform_all [c1; c2] (mkResponse (VDict d)) = perform_all [c2; c1] (mkResponse (VDict d)).
Proof.
  intros Hok Hincl Hc1 Hc2 Hne. cbn [perform_all].
  destruct (call_field c1) as [k1|] eqn:E1;
    [|destruct c1; simpl in *; congruence].
  destruct (call_field c2) as [k2|] eqn:E2; [|congruence].
  assert (Hk : k1 <> k2) by congruence.
  destruct (perform_assigns c1 k1 d Hok E1) as (v1 & H1).
  destruct (perform_assigns c2 k2 d Hok E2) as (v2 & H2).
  rewrite (H1 d eq_refl), (H2 d eq_refl). cbn [bind].
  rewrite (H2 (dict_set k1 v1 d)) by (apply dict_get_set_other; congruence).
  rewrite (H1 (dict_set k2 v2 d)) by (apply dict_get_set_other; congruence).
  cbn [bind]. rewrite (dict_set_swap k2 k1 v2 v1 d); [reflexivity | congruence |].
  left. apply Hincl. exact (call_field_canonical c2 k2 E2).
Qed.

Lemma calls_on_different_fields_commute_witness :
  perform_all [SetText (VStr "hi"); SetFiles (VStr "a.png")] Response_new
  = perform_all [SetFiles (VStr "a.png"); SetText (VStr "hi")] Response_new.
Proof.
  apply (calls_on_different_fields_commute
           (SetText (VStr "hi")) (SetFiles (VStr "a.png")) default_attributes).
  - exact sequences_ok_new.
  - apply incl_refl.
  - discriminate.
  - discriminate.
  - discriminate.
Defined.

(** X7: the mapping [as_dict] returns is a fixed point: a Response
    constructed from it has that mapping as its own [as_dict]. *)
Theorem as_dict_fixed_point (d : dict) :
  NoDup (keys d) ->
  exists m, as_dict (mkResponse (VDict d)) = Ok m /\
            as_dict (Response_init (VDict m)) = Ok m.
Proof.
  intros Hnd. exists (filter (fun kv => truthy (snd kv)) d).
  split; [apply as_dict_filter; exact Hnd|].
  destruct (filter (fun kv => truthy (snd kv)) d) as [|kv m] eqn:E.
  - reflexivity.
  - unfold Response_init. cbn [truthy]. rewrite <- E.
    rewrite as_dict_filter by (apply keys_filter_nodup; exact Hnd).
    rewrite filter_twice. reflexivity.
Qed.

Lemma as_dict_fixed_point_witness :
  exists m, as_dict (mkResponse (VDict [("text", VStr "hi"); ("html", VNone)])) = Ok m /\
            as_dict (Response_init (VDict m)) = Ok m.
Proof.
  apply (as_dict_fixed_point [("text", VStr "hi"); ("html", VNone)]).
  repeat (constructor; [simpl; intuition discriminate|]). constructor.
Defined.

(** X9: [as_dict] returns the empty mapping exactly when every value of
    the record is falsy. *)
Theorem as_dict_empty_iff (d : dict) :
  as_dict (mkResponse (VDict d)) = Ok []
  <-> Forall (fun kv => truthy (snd kv) = false) d.
Proof.
  unfold as_dict. simpl.
  assert (Hloop : forall its ret,
             as_dict_loop its ret = [] <->
             ret = [] /\ Forall (fun kv => truthy (snd kv) = false) its).
  { unfold as_dict_loop.
    induction its as [|[k v] its IH]; intros ret; simpl.
    - split; [intros ->; auto | tauto].
    - rewrite IH. destruct (truthy v) eqn:E; split.
      + intros [Hset _]. destruct ret as [|[k0 v0] ret]; simpl in Hset;
          [discriminate|]. destruct (String.eqb k k0); discriminate.
      + intros [_ Hall]. inversion Hall as [|? ? Hv _]; subst. simpl in Hv. congruence.
      + intros [-> Hall]. split; [reflexivity|]. constructor; assumption.
      + intros [-> Hall]. inversion Hall; subst. auto. }
  split.
  - intros H. injection H as H. apply Hloop in H. tauto.
  - intros H. f_equal. apply Hloop. auto.
Qed.

Lemma as_dict_empty_iff_witness :
  as_dict (mkResponse (VDict [("text", VStr EmptyString); ("files", VList [])])) = Ok [].
Proof.
  apply (proj2 (as_dict_empty_iff [("text", VStr EmptyString); ("files", VList [])])).
  repeat constructor.
Defined.

(** X12: after a pass-through setter, [as_dict] has the field with the
    value when the value is truthy and lacks the field when it is falsy:
    assigning None or an empty string removes the field from the export.
    The other fields of the export are as before. *)
Theorem setter_then_as_dict (k : string) (val : value) (d : dict) :
  NoDup (keys d) ->
  exists r m,
    setter k val (mkResponse (VDict d)) = Ok r /\
    as_dict r = Ok m /\
    dict_get k m = (if truthy val then Some val else None) /\
    forall k', k' <> k ->
               dict_get k' m = dict_get k' (filter (fun kv => truthy (snd kv)) d).
Proof.
  intros Hnd.
  pose proof (keys_dict_set_nodup k val d Hnd) as Hnd'.
  eexists. eexists. split; [apply setter_dict|].
  split; [apply as_dict_filter; exact Hnd'|]. split.
  - rewrite dict_get_truthy, dict_get_set_same by exact Hnd'. reflexivity.
  - intros k' Hne. rewrite !dict_get_truthy by assumption.
    rewrite dict_get_set_other by exact Hne. reflexivity.
Qed.

Lemma setter_then_as_dict_witness :
  exists r m,
    set_text (VStr EmptyString) (mkResponse (VDict [("text", VStr "hi"); ("html", VStr "<b>")]))
    = Ok r /\
    as_dict r = Ok m /\
    dict_get "text" m = None /\
    dict_get "html" m = Some (VStr "<b>").
Proof.
  destruct (setter_then_as_dict "text" (VStr EmptyString)
              [("text", VStr "hi"); ("html", VStr "<b>")])
    as (r & m & Hset & Hdict & Hk & Hframe).
  - repeat (constructor; [simpl; intuition discriminate|]). constructor.
  - exists r, m. split; [exact Hset|]. split; [exact Hdict|]. split; [exact Hk|].
    rewrite (Hframe "html"); [reflexivity | discriminate].
Defined.

(** X11: after the appending setter the field is in [as_dict], with the
    longer list, whatever was appended: even a falsy value makes the list
    non-empty. *)
Theorem appender_then_as_dict (k : string) (val : value) (d : dict) (xs : list value) :
  NoDup (keys d) ->
  dict_get k d = Some (VList xs) ->
  exists r m,
    appender k val (mkResponse (VDict d)) = Ok r /\
    as_dict r = Ok m /\
    dict_get k m = Some (VList (xs ++ [val])).
Proof.
  intros Hnd Hk.
  pose proof (keys_dict_set_nodup k (VList (xs ++ [val])) d Hnd) as Hnd'.
  eexists. eexists. split; [apply (appender_dict _ _ _ _ Hk)|].
  split; [apply as_dict_filter; exact Hnd'|].
  rewrite dict_get_truthy, dict_get_set_same by exact Hnd'.
  destruct xs; reflexivity.
Qed.

Lemma appender_then_as_dict_witness :
  exists r m,
    set_files VNone Response_new = Ok r /\
    as_dict r = Ok m /\
    dict_get "files" m = Some (VList [VNone]).
Proof.
  apply (appender_then_as_dict "files" VNone default_attributes []).
  - exact canonical_keys_nodup.
  - reflexivity.
Defined.

(** X8: [response_custom_format] never raises, and its result is the
    default record with [text] and [markdown] set, [files] holding the
    [files] argument as its only element when that argument is truthy (a
    sequence or not) and nothing otherwise, and likewise [attachments];
    [roomId], [parentId] and [html] stay None. *)
Theorem custom_format_record (t m fs ats : value) :
  response_custom_format t m fs ats
  = Ok (mkResponse
          (VDict [("text", t); ("roomId", VNone); ("parentId", VNone);
                  ("markdown", m); ("html", VNone);
                  ("files", VList (if truthy fs then [fs] else []));
                  ("attachments", VList (if truthy ats then [ats] else []))])).
Proof.
  unfold response_custom_format. cbn.
  destruct (truthy fs), (truthy ats); reflexivity.
Qed.

(** X17: the export [as_dict] of a Response built from a card has the
    three keys [text], [markdown] and [attachments], in this order, whatever
    the card exports; [roomId] is None and is not in the export. *)
Theorem adaptive_card_as_dict {C : Type} `{AdaptiveCard C} (card : C) :
  exists r,
    response_from_adaptive_card card = Ok r /\
    as_dict r
    = Ok [("text", VStr fallback_text);
          ("markdown", VStr fallback_text);
          ("attachments",
           VList [VDict [("contentType", VStr adaptive_card_content_type);
                         ("content", to_dict card)]])] /\
    roomId r = Ok VNone.
Proof.
  eexists. split; [reflexivity|]. split; reflexivity.
Qed.
